(** * The Slack reader: paginated retrieval with rate-limit handling

    A shallow embedding of [llama_index/readers/slack/base.py] and the
    properties of its two fetch loops, of the construction of the time
    window, of channel resolution and of [load_data].

    The Slack SDK client and the pieces of the Python runtime the reader
    leans on (floats, [re], the iteration order of [set]) are interfaces;
    the reader's own code is translated function by function. *)

From Stdlib Require Import Ascii String List Bool Arith Lia DecimalString.
Import ListNotations.
Open Scope string_scope.
Open Scope list_scope.

(** ** Exceptions *)

(** [e.response["error"]] and [int(e.response.headers["retry-after"])] of a
    [SlackApiError]; the header is read only when the error is
    ["ratelimited"], where the platform sends a whole number of seconds. *)
Record api_error := { error : string; retry_after : nat }.

Inductive exn :=
| KeyError (key : string)
| ValueError (msg : string)
| OverflowError (msg : string)
| SlackApiError (e : api_error)
| ValidationError (field : string).

(** ** Python runtime *)

(** What [re.compile(p)] does: it returns a pattern object, raises
    [re.error], or raises another exception ([OverflowError] on a
    repetition count beyond the engine's limit, for one). *)
Inductive compiled :=
| Compiled
| ReError
| Raised (e : exn).

(** Letters, digits, [_] and [-]: characters that stand for themselves in
    a regular expression. *)
Definition literal_char (c : ascii) : bool :=
  let n := nat_of_ascii c in
  (Nat.leb 48 n && Nat.leb n 57) || (Nat.leb 65 n && Nat.leb n 90) ||
  (Nat.leb 97 n && Nat.leb n 122) || Nat.eqb n 95 || Nat.eqb n 45.

Fixpoint literal (p : string) : bool :=
  match p with
  | EmptyString => true
  | String c rest => literal_char c && literal rest
  end.

(** What the reader uses of the interpreter and the standard library.
    [float_truthy x] is the truth value of a float ([x != 0.0]),
    [str_float] is [str()] on a float, [timestamp] is
    [datetime.timestamp()].  [re_compile p] is the outcome of
    [re.compile(p)]; [re_match p s] says that [re.match(p, s)] returns a
    match object, for a pattern that compiles.  A pattern made of literal
    characters compiles, and [re.match] then succeeds exactly on the
    strings that start with it.  [list_of_set l] is [list(set(l))]: the
    distinct elements of [l] in an order the language leaves open. *)
Class PyRuntime := {
  pyfloat : Type;
  float_truthy : pyfloat -> bool;
  str_float : pyfloat -> string;
  datetime : Type;
  timestamp : datetime -> pyfloat;
  SSLContext : Type;
  re_compile : string -> compiled;
  re_match : string -> string -> bool;
  re_literal_compiles : forall p, literal p = true -> re_compile p = Compiled;
  re_literal_match :
    forall p s, literal p = true -> re_match p s = String.prefix p s;
  list_of_set : list string -> list string;
  list_of_set_NoDup : forall l, NoDup (list_of_set l);
  list_of_set_In : forall l x, In x (list_of_set l) <-> In x l
}.

(** ** Slack SDK *)

Record message := { ts : string; text : string }.

(** A response of [conversations.replies] or [conversations.history]:
    [result["messages"]], [result["has_more"]] and
    [result["response_metadata"]["next_cursor"]]. *)
Record page := {
  messages : list message;
  has_more : bool;
  next_cursor : string
}.

Record channel := { id : string; name : string }.

(** The keyword arguments of a page request.  [kw_cursor = None] is the
    Python [None] passed as cursor; [kw_ts], [kw_latest] and [kw_oldest]
    are [None] when the key is not passed at all. *)
Record kwargs := {
  kw_channel : string;
  kw_ts : option string;
  kw_cursor : option string;
  kw_latest : option string;
  kw_oldest : option string
}.

(** [slack_sdk.WebClient] over a state [St] that stands for the client and
    the remote side together.  A call either raises [SlackApiError]
    ([inl]) or returns its response ([inr]). *)
Class WebClient (St : Type) `{PyRuntime} := {
  new_client : string -> option SSLContext -> St;
  api_test : St -> (api_error + bool * string) * St;
  conversations_replies : kwargs -> St -> (api_error + page) * St;
  conversations_history : kwargs -> St -> (api_error + page) * St;
  conversations_list : string -> St -> (api_error + list channel) * St
}.

(** ** Observable behaviour *)

Inductive log_level := INFO | WARNING | ERROR.

(** What a run does that the outside can see, in order: the requests it
    issues, the suspensions ([time.sleep]) and the log records (the
    message without its interpolated arguments). *)
Inductive event :=
| Replies (kw : kwargs)
| History (kw : kwargs)
| ListChannels (types : string)
| Sleep (seconds : nat)
| Log (level : log_level) (msg : string).

Record world (St : Type) := World { client : St; trace : list event }.
Arguments World {St} _ _.
Arguments client {St} _.
Arguments trace {St} _.

(** ** Runs

    A computation transforms the world and yields a value, or [None] when
    the iteration budget is used up; the world it then returns is the one
    reached so far, so what a run has done is visible also for a loop
    that never ends. *)
Definition Run (St A : Type) : Type := world St -> option A * world St.

Definition ret {St A} (a : A) : Run St A := fun w => (Some a, w).

Definition bind {St A B} (m : Run St A) (k : A -> Run St B) : Run St B :=
  fun w => match m w with
           | (Some a, w') => k a w'
           | (None, w') => (None, w')
           end.

Definition out_of_fuel {St A} : Run St A := fun w => (None, w).

Definition emit {St} (e : event) : Run St unit :=
  fun w => (Some tt, World (client w) (trace w ++ [e])).

Definition call {St A} (f : St -> A * St) : Run St A :=
  fun w => let (a, c) := f (client w) in (Some a, World c (trace w)).

Declare Scope run_scope.
Delimit Scope run_scope with run.
Notation "x <- m ;; k" := (bind m (fun x => k))
  (at level 61, m at next level, right associativity) : run_scope.
Notation "m ;;; k" := (bind m (fun _ => k))
  (at level 61, right associativity) : run_scope.
Open Scope run_scope.

(** ** The reader *)

Record Document := {
  id_ : string;
  doc_text : string;
  metadata : list (string * string)
}.

Definition nl : string := String (ascii_of_nat 10) EmptyString.

(** The blank-line delimiter ["\n\n"]. *)
Definition delimiter : string := (nl ++ nl)%string.

(** [sep.join(l)]. *)
Definition join (sep : string) (l : list string) : string := String.concat sep l.

(** Truth value of an optional list: [None] and [[]] are false. *)
Definition truthy {A} (l : option (list A)) : bool :=
  match l with
  | Some (_ :: _) => true
  | _ => false
  end.

Definition is_nil {A} (l : list A) : bool :=
  match l with [] => true | _ => false end.

Section Reader.

Context `{PY : PyRuntime} {St : Type} `{WC : !WebClient St}.

Record SlackReader := {
  slack_token : string;
  earliest_date_timestamp : option pyfloat;
  latest_date_timestamp : pyfloat
}.

(** The arguments of [SlackReader.__init__]. *)
Record InitArgs := {
  arg_slack_token : option string;
  arg_ssl : option SSLContext;
  arg_earliest_date : option datetime;
  arg_latest_date : option datetime;
  arg_earliest_date_timestamp : option pyfloat;
  arg_latest_date_timestamp : option pyfloat
}.

(** [x or y] on an optional value [y], for a float [x]. *)
Definition float_or (x : pyfloat) (y : option pyfloat) : option pyfloat :=
  if float_truthy x then Some x else y.

(** [SlackReader.__init__].  [environ] is [os.environ] and [now] is what
    [datetime.now()] returns.  The result is the raised exception or the
    reader with the world its client starts in. *)
Definition init (args : InitArgs) (environ : string -> option string)
    (now : datetime) : exn + SlackReader * world St :=
  match (match arg_slack_token args with
         | Some t => Some t
         | None => environ "SLACK_BOT_TOKEN"
         end) with
  | None => inl (KeyError "SLACK_BOT_TOKEN")
  | Some token =>
    let c := new_client token (arg_ssl args) in
    match arg_latest_date args, arg_earliest_date args with
    | Some _, None =>
      inl (ValueError "Must specify `earliest_date` if `latest_date` is specified.")
    | _, _ =>
      let earliest :=
        match arg_earliest_date args with
        | Some d => Some (timestamp d)
        | None => arg_earliest_date_timestamp args
        end in
      let latest :=
        match arg_latest_date args with
        | Some d => Some (timestamp d)
        | None => float_or (timestamp now) (arg_latest_date_timestamp args)
        end in
      match api_test c with
      | (inl e, _) => inl (SlackApiError e)
      | (inr (false, _), _) => inl (ValueError "Error initializing Slack API: ")
      | (inr (true, _), c') =>
        match latest with
        | None => inl (ValidationError "latest_date_timestamp")
        | Some l =>
          inr ({| slack_token := token;
                  earliest_date_timestamp := earliest;
                  latest_date_timestamp := l |},
               World c' [])
        end
      end
    end
  end.

(** The keyword arguments [_read_message] passes to
    [conversations_replies]. *)
Definition replies_kwargs (self : SlackReader) (channel_id message_ts : string)
    (cursor : option string) : kwargs :=
  match earliest_date_timestamp self with
  | None =>
    {| kw_channel := channel_id; kw_ts := Some message_ts; kw_cursor := cursor;
       kw_latest := None; kw_oldest := None |}
  | Some _ =>
    {| kw_channel := channel_id; kw_ts := Some message_ts; kw_cursor := cursor;
       kw_latest := Some (str_float (latest_date_timestamp self));
       kw_oldest := match earliest_date_timestamp self with
                    | Some e => Some (str_float e)
                    | None => None
                    end |}
  end.

(** The keyword arguments [_read_channel] passes to
    [conversations_history]. *)
Definition history_kwargs (self : SlackReader) (channel_id : string)
    (cursor : option string) : kwargs :=
  {| kw_channel := channel_id; kw_ts := None; kw_cursor := cursor;
     kw_latest := Some (str_float (latest_date_timestamp self));
     kw_oldest := match earliest_date_timestamp self with
                  | Some e => Some (str_float e)
                  | None => None
                  end |}.

Definition rate_limit_msg : string :=
  "Rate limit error reached, sleeping for: {} seconds".

Definition other_error_msg : string := "Error parsing conversation replies: ".

(** The [while True] loop of [_read_message]; [messages_text] and
    [next_cursor] are its two variables. *)
Fixpoint read_message_loop (fuel : nat) (self : SlackReader)
    (channel_id message_ts : string) (messages_text : list string)
    (next_cursor_ : option string) : Run St (list string) :=
  match fuel with
  | 0 => out_of_fuel
  | S fuel' =>
    let kw := replies_kwargs self channel_id message_ts next_cursor_ in
    emit (Replies kw) ;;;
    r <- call (conversations_replies kw) ;;
    match r with
    | inr result =>
      let messages_text' := messages_text ++ map text (messages result) in
      if negb (has_more result) then ret messages_text'
      else read_message_loop fuel' self channel_id message_ts messages_text'
             (Some (next_cursor result))
    | inl e =>
      if String.eqb (error e) "ratelimited" then
        emit (Log ERROR rate_limit_msg) ;;;
        emit (Sleep (retry_after e)) ;;;
        read_message_loop fuel' self channel_id message_ts messages_text
          next_cursor_
      else
        emit (Log ERROR other_error_msg) ;;;
        ret messages_text
    end
  end.

Definition read_message (fuel : nat) (self : SlackReader)
    (channel_id message_ts : string) : Run St string :=
  messages_text <- read_message_loop fuel self channel_id message_ts [] None ;;
  ret (join delimiter messages_text).

(** [result_messages.extend(self._read_message(channel_id, message["ts"])
    for message in conversation_history)]: the threads are read one after
    the other and appended as they come. *)
Fixpoint extend_with_threads (fuel : nat) (self : SlackReader)
    (channel_id : string) (conversation_history : list message)
    (result_messages : list string) : Run St (list string) :=
  match conversation_history with
  | [] => ret result_messages
  | m :: rest =>
    t <- read_message fuel self channel_id (ts m) ;;
    extend_with_threads fuel self channel_id rest (result_messages ++ [t])
  end.

Definition messages_found_msg : string := "{} messages found in {}".

(** The [while True] loop of [_read_channel]. *)
Fixpoint read_channel_loop (fuel : nat) (self : SlackReader)
    (channel_id : string) (result_messages : list string)
    (next_cursor_ : option string) : Run St (list string) :=
  match fuel with
  | 0 => out_of_fuel
  | S fuel' =>
    let kw := history_kwargs self channel_id next_cursor_ in
    emit (History kw) ;;;
    r <- call (conversations_history kw) ;;
    match r with
    | inr result =>
      emit (Log INFO messages_found_msg) ;;;
      result_messages' <- extend_with_threads fuel' self channel_id
                            (messages result) result_messages ;;
      if negb (has_more result) then ret result_messages'
      else read_channel_loop fuel' self channel_id result_messages'
             (Some (next_cursor result))
    | inl e =>
      if String.eqb (error e) "ratelimited" then
        emit (Log ERROR rate_limit_msg) ;;;
        emit (Sleep (retry_after e)) ;;;
        read_channel_loop fuel' self channel_id result_messages next_cursor_
      else
        emit (Log ERROR other_error_msg) ;;;
        read_channel_loop fuel' self channel_id result_messages next_cursor_
    end
  end.

Definition read_channel (fuel : nat) (self : SlackReader)
    (channel_id : string) (reverse_chronological : bool) : Run St string :=
  result_messages <- read_channel_loop fuel self channel_id [] None ;;
  ret (if reverse_chronological
       then join delimiter result_messages
       else join delimiter (rev result_messages)).

(** [_is_regex]: true when the pattern compiles, false when
    [re.compile] raises [re.error]; any other exception of [re.compile]
    is not caught and goes on to the caller. *)
Definition is_regex (pattern : string) : exn + bool :=
  match re_compile pattern with
  | Compiled => inr true
  | ReError => inr false
  | Raised e => inl e
  end.

(** A list comprehension [[x for x in l if test(x)]] whose test may
    raise: the first exception ends it. *)
Fixpoint comprehension {A} (test : A -> exn + bool) (l : list A)
    : exn + list A :=
  match l with
  | [] => inr []
  | x :: rest =>
    match test x with
    | inl e => inl e
    | inr b =>
      match comprehension test rest with
      | inl e => inl e
      | inr kept => inr (if b then x :: kept else kept)
      end
    end
  end.

(** [not self._is_regex(pattern)]. *)
Definition is_not_regex (pattern : string) : exn + bool :=
  match is_regex pattern with
  | inl e => inl e
  | inr b => inr (negb b)
  end.

(** [_list_channels]. *)
Definition list_channels : Run St (list channel) :=
  emit (ListChannels "public_channel,private_channel") ;;;
  r <- call (conversations_list "public_channel,private_channel") ;;
  match r with
  | inr channels => ret channels
  | inl e => emit (Log ERROR "Error fetching channels: ") ;;; ret []
  end.

(** [x in l] on strings. *)
Definition mem (x : string) (l : list string) : bool :=
  existsb (String.eqb x) l.

(** The inner [for pattern in regex_patterns] of [_filter_channels]:
    one copy of the channel for each pattern that matches. *)
Fixpoint regex_hits (c : channel) (regex_patterns : list string) : list channel :=
  match regex_patterns with
  | [] => []
  | pattern :: rest =>
    if re_match pattern (name c) then c :: regex_hits c rest
    else regex_hits c rest
  end.

(** [_filter_channels]. *)
Definition filter_channels (channels : list channel) (patterns : list string)
    : exn + list channel :=
  match comprehension is_regex patterns with
  | inl e => inl e
  | inr regex_patterns =>
    match comprehension is_not_regex patterns with
    | inl e => inl e
    | inr exact_names =>
      let filtered_channels :=
        filter (fun c => mem (name c) exact_names) channels in
      inr (filtered_channels
           ++ flat_map (fun c => regex_hits c regex_patterns) channels)
    end
  end.

(** [_get_channel_ids]. *)
Definition get_channel_ids (patterns : list string)
    : Run St (exn + list string) :=
  channels <- list_channels ;;
  emit (Log INFO "Total channels fetched: ") ;;;
  match filter_channels channels patterns with
  | inl e => ret (inl e)
  | inr filtered_channels =>
    emit (Log INFO "Channels matching patterns: ") ;;;
    ret (inr (map id filtered_channels))
  end.

Definition no_channels_msg : string :=
  "No channels found matching the given patterns.".

(** The [for channel_id in channel_ids] loop of [load_data]. *)
Fixpoint load_channels (fuel : nat) (self : SlackReader)
    (reverse_chronological : bool) (channel_ids : list string)
    (results : list Document) : Run St (list Document) :=
  match channel_ids with
  | [] => ret results
  | channel_id :: rest =>
    channel_content <- read_channel fuel self channel_id reverse_chronological ;;
    load_channels fuel self reverse_chronological rest
      (results ++ [{| id_ := channel_id;
                      doc_text := channel_content;
                      metadata := [("channel", channel_id)] |}])
  end.

Definition opt_list {A} (l : option (list A)) : list A :=
  match l with Some l => l | None => [] end.

(** The channel ids [load_data] goes on to read, once the patterns are
    resolved; an exception out of the resolution goes on to the caller. *)
Definition resolve_channel_ids (channel_ids channel_patterns : option (list string))
    : Run St (exn + list string) :=
  if truthy channel_patterns then
    r <- get_channel_ids (opt_list channel_patterns) ;;
    match r with
    | inl e => ret (inl e)
    | inr pattern_channel_ids =>
      (if is_nil pattern_channel_ids then emit (Log WARNING no_channels_msg)
       else ret tt) ;;;
      if truthy channel_ids then
        ret (inr (list_of_set (opt_list channel_ids ++ pattern_channel_ids)))
      else ret (inr pattern_channel_ids)
    end
  else ret (inr (opt_list channel_ids)).

(** [load_data]. *)
Definition load_data (fuel : nat) (self : SlackReader)
    (channel_ids channel_patterns : option (list string))
    (reverse_chronological : bool) : Run St (exn + list Document) :=
  if negb (truthy channel_ids) && negb (truthy channel_patterns) then
    ret (inl (ValueError "Must specify either `channel_ids` or `channel_patterns`."))
  else
    r <- resolve_channel_ids channel_ids channel_patterns ;;
    match r with
    | inl e => ret (inl e)
    | inr ids =>
      results <- load_channels fuel self reverse_chronological ids [] ;;
      ret (inr results)
    end.

End Reader.

(** ** Test doubles

    A runtime and a scripted client to run the reader on concrete
    inputs. *)

Module Double.

(** Whole-second timestamps, printed the way [str()] prints such a float. *)
Definition str_seconds (x : nat) : string :=
  (NilEmpty.string_of_uint (Nat.to_uint x) ++ ".0")%string.

Definition strip_caret (p : string) : string :=
  match p with
  | String "^"%char r => r
  | _ => p
  end.

Fixpoint strip_dotstar (p : string) : string :=
  match p with
  | EmptyString => EmptyString
  | String "."%char (String "*"%char EmptyString) => EmptyString
  | String c r => String c (strip_dotstar r)
  end.

(** The pattern on which [re.compile] raises [OverflowError]. *)
Definition too_many : string := "a{4294967296}".

(** The fragment of [re] the examples need: a pattern of literal
    characters; or a literal led by [^] and followed by [.*]; a pattern
    that starts with [*] raises [re.error] ("nothing to repeat");
    [too_many] raises [OverflowError]. *)
Definition compile (p : string) : compiled :=
  if literal p then Compiled
  else if String.eqb p too_many then
    Raised (OverflowError "the repetition number is too large")
  else if String.prefix "*" p then ReError
  else Compiled.

Definition matches (p s : string) : bool :=
  if literal p then String.prefix p s
  else String.prefix (strip_dotstar (strip_caret p)) s.

#[export] Instance runtime : PyRuntime := {|
  pyfloat := nat;
  float_truthy := fun x => negb (Nat.eqb x 0);
  str_float := str_seconds;
  datetime := nat;
  timestamp := fun d => d;
  SSLContext := unit;
  re_compile := compile;
  re_match := matches;
  re_literal_compiles := fun p (H : literal p = true) =>
    @eq_ind_r bool true
      (fun b : bool =>
         (if b then Compiled
          else if String.eqb p too_many then
            Raised (OverflowError "the repetition number is too large")
          else if String.prefix "*" p then ReError
          else Compiled) = Compiled) eq_refl (literal p) H;
  re_literal_match := fun p s (H : literal p = true) =>
    @eq_ind_r bool true
      (fun b : bool =>
         (if b then String.prefix p s
          else String.prefix (strip_dotstar (strip_caret p)) s)
         = String.prefix p s) eq_refl (literal p) H;
  list_of_set := nodup string_dec;
  list_of_set_NoDup := NoDup_nodup string_dec;
  list_of_set_In := nodup_In string_dec
|}.

(** A client that answers each method from its own script, one entry per
    call, and raises a [fatal_error] once the script is used up. *)
Record mock := {
  replies_script : list (api_error + page);
  history_script : list (api_error + page);
  channels_script : list (api_error + list channel)
}.

Definition fatal : api_error := {| error := "fatal_error"; retry_after := 0 |}.

Definition ratelimited (seconds : nat) : api_error :=
  {| error := "ratelimited"; retry_after := seconds |}.

Definition next_reply (_ : kwargs) (m : mock) : (api_error + page) * mock :=
  match replies_script m with
  | [] => (inl fatal, m)
  | r :: rest =>
    (r, {| replies_script := rest;
           history_script := history_script m;
           channels_script := channels_script m |})
  end.

Definition next_history (_ : kwargs) (m : mock) : (api_error + page) * mock :=
  match history_script m with
  | [] => (inl fatal, m)
  | r :: rest =>
    (r, {| replies_script := replies_script m;
           history_script := rest;
           channels_script := channels_script m |})
  end.

Definition next_channels (_ : string) (m : mock)
    : (api_error + list channel) * mock :=
  match channels_script m with
  | [] => (inl fatal, m)
  | r :: rest =>
    (r, {| replies_script := replies_script m;
           history_script := history_script m;
           channels_script := rest |})
  end.

Definition empty : mock :=
  {| replies_script := []; history_script := []; channels_script := [] |}.

#[export] Instance web_client : WebClient mock := {|
  new_client := fun _ _ => empty;
  api_test := fun m => (inr (true, ""), m);
  conversations_replies := next_reply;
  conversations_history := next_history;
  conversations_list := next_channels
|}.

Definition start (m : mock) : world mock := World m [].

(** A page of one message. *)
Definition single (t : string) (more : bool) (cursor : string) : page :=
  {| messages := [{| ts := t; text := t |}];
     has_more := more; next_cursor := cursor |}.

(** A reader with no window and one with the window [100, 200]. *)
Definition unbounded : SlackReader :=
  {| slack_token := "xoxb"; earliest_date_timestamp := None;
     latest_date_timestamp := 200 |}.

Definition windowed : SlackReader :=
  {| slack_token := "xoxb"; earliest_date_timestamp := Some 100;
     latest_date_timestamp := 200 |}.

(** A channel whose history is one page [m3, m2, m1], newest first, each
    message a thread of its own. *)
Definition three_messages : mock :=
  {| history_script :=
       [inr {| messages := [{| ts := "3"; text := "m3" |};
                            {| ts := "2"; text := "m2" |};
                            {| ts := "1"; text := "m1" |}];
               has_more := false; next_cursor := "" |}];
     replies_script :=
       [inr (single "m3" false ""); inr (single "m2" false "");
        inr (single "m1" false "")];
     channels_script := [] |}.

(** Both loops meet a rate limit of seven seconds on their first request
    and are served on the second. *)
Definition throttled : mock :=
  {| history_script := [inl (ratelimited 7); inr (single "1" false "")];
     replies_script := [inl (ratelimited 7); inr (single "r" false "")];
     channels_script := [] |}.

(** The first history request fails with an error that is no rate limit,
    the second one is served. *)
Definition flaky : mock :=
  {| history_script := [inl fatal; inr (single "1" false "")];
     replies_script := [inr (single "late" false "")];
     channels_script := [] |}.

(** A thread whose first page is served and whose second page fails. *)
Definition cut_thread : mock :=
  {| history_script := [];
     replies_script := [inr (single "root" true "c1")];
     channels_script := [] |}.

(** A history of two pages of one message each. *)
Definition two_pages : mock :=
  {| history_script := [inr (single "1" true "c1"); inr (single "2" false "")];
     replies_script := [inr (single "a" false ""); inr (single "b" false "")];
     channels_script := [] |}.

Definition no_messages : page :=
  {| messages := []; has_more := false; next_cursor := "" |}.

(** Channels [A] and [B], both without messages. *)
Definition workspace : mock :=
  {| history_script := [inr no_messages; inr no_messages];
     replies_script := [];
     channels_script := [inr [{| id := "A"; name := "alpha" |};
                              {| id := "B"; name := "beta" |}]] |}.



Definition only_raw_latest (raw : nat) : InitArgs :=
  {| arg_slack_token := Some "xoxb"; arg_ssl := None;
     arg_earliest_date := None; arg_latest_date := None;
     arg_earliest_date_timestamp := None;
     arg_latest_date_timestamp := Some raw |}.

(** No [SLACK_BOT_TOKEN] in the environment. *)
Definition no_environ (_ : string) : option string := None.

(** The reader built from a token alone when the clock reads 1000. *)
Definition at_1000 : SlackReader :=
  {| slack_token := "xoxb"; earliest_date_timestamp := None;
     latest_date_timestamp := 1000 |}.

End Double.

(** ** Vocabulary of the properties *)

(** [m] only appends to the trace, and every event it appends
    satisfies [P]. *)
Definition appends {St A} (P : event -> Prop) (m : Run St A) : Prop :=
  forall w, exists evs, trace (snd (m w)) = trace w ++ evs /\ Forall P evs.

Section Vocabulary.

Context `{PY : PyRuntime} {St : Type} `{WC : !WebClient St}.

(** The window bounds a request carries, as the two loops build them: a
    replies request has both bounds when the earliest bound is set and
    none otherwise; a history request always has the latest bound, and
    the earliest one when it is set. *)
Definition sends_bounds (self : SlackReader) (e : event) : Prop :=
  match e with
  | Replies kw =>
    match earliest_date_timestamp self with
    | Some t =>
      kw_oldest kw = Some (str_float t) /\
      kw_latest kw = Some (str_float (latest_date_timestamp self))
    | None => kw_oldest kw = None /\ kw_latest kw = None
    end
  | History kw =>
    kw_latest kw = Some (str_float (latest_date_timestamp self)) /\
    kw_oldest kw = option_map str_float (earliest_date_timestamp self)
  | _ => True
  end.

(** The bounds as the specification words them for both loops: both
    bounds when the earliest one is set, no bound at all when it is not. *)
Definition claimed_bounds (self : SlackReader) (e : event) : Prop :=
  match e with
  | Replies kw | History kw =>
    match earliest_date_timestamp self with
    | Some t =>
      kw_oldest kw = Some (str_float t) /\
      kw_latest kw = Some (str_float (latest_date_timestamp self))
    | None => kw_oldest kw = None /\ kw_latest kw = None
    end
  | _ => True
  end.

(** The events of a thread fetch: replies requests built by
    [replies_kwargs], suspensions and log records. *)
Definition thread_event (self : SlackReader) (e : event) : Prop :=
  match e with
  | Replies kw =>
    exists channel_id message_ts cursor,
      kw = replies_kwargs self channel_id message_ts cursor
  | History _ | ListChannels _ => False
  | Sleep _ | Log _ _ => True
  end.

(** The events of a channel fetch: those of its thread fetches and
    history requests built by [history_kwargs]. *)
Definition fetch_event (self : SlackReader) (e : event) : Prop :=
  match e with
  | History kw => exists channel_id cursor, kw = history_kwargs self channel_id cursor
  | _ => thread_event self e
  end.

(** The number of history requests in a trace. *)
Fixpoint count_history (t : list event) : nat :=
  match t with
  | [] => 0
  | History _ :: rest => S (count_history rest)
  | _ :: rest => count_history rest
  end.

(** The world right after a history request was answered with a page. *)
Definition page_received (w : world St) (kw : kwargs) (c : St) : world St :=
  World c (trace w ++ [History kw; Log INFO messages_found_msg]).

(** [paged_history self channel_id N cursor w]: from the world [w] and the
    cursor [cursor] the history of the channel has [N] more pages.  Each
    history request is answered with a page, the first [N - 1] of them
    with [has_more] set and the last one without, and the threads of each
    page are read to the end before the next page is asked for. *)
Inductive paged_history (self : SlackReader) (channel_id : string)
    : nat -> option string -> world St -> Prop :=
| last_page cursor w result c fuel texts w' :
    conversations_history (history_kwargs self channel_id cursor) (client w)
      = (inr result, c) ->
    has_more result = false ->
    extend_with_threads fuel self channel_id (messages result) []
      (page_received w (history_kwargs self channel_id cursor) c)
      = (Some texts, w') ->
    paged_history self channel_id 1 cursor w
| next_page N cursor w result c fuel texts w' :
    conversations_history (history_kwargs self channel_id cursor) (client w)
      = (inr result, c) ->
    has_more result = true ->
    extend_with_threads fuel self channel_id (messages result) []
      (page_received w (history_kwargs self channel_id cursor) c)
      = (Some texts, w') ->
    paged_history self channel_id N (Some (next_cursor result)) w' ->
    paged_history self channel_id (S N) cursor w.

(** The pattern compiles, and the first exception that [re.compile]
    raises on a list of patterns, other than [re.error]. *)
Definition compiles (pattern : string) : bool :=
  match re_compile pattern with
  | Compiled => true
  | _ => false
  end.

Fixpoint first_raise (patterns : list string) : option exn :=
  match patterns with
  | [] => None
  | p :: rest =>
    match re_compile p with
    | Raised e => Some e
    | _ => first_raise rest
    end
  end.

(** A pattern matches a channel: a pattern that compiles is matched as a
    regular expression from the start of the name, a pattern on which
    [re.compile] raises [re.error] has to be the name itself. *)
Definition pattern_matches (pattern : string) (c : channel) : bool :=
  match re_compile pattern with
  | Compiled => re_match pattern (name c)
  | ReError => String.eqb pattern (name c)
  | Raised _ => false
  end.

(** The document [load_data] builds for a channel. *)
Definition channel_document (channel_id content : string) : Document :=
  {| id_ := channel_id; doc_text := content;
     metadata := [("channel", channel_id)] |}.

(** The texts of the messages of a list of pages, in order. *)
Definition texts_of (pages : list page) : list string :=
  flat_map (fun p => map text (messages p)) pages.

(** The suspensions of a trace, in order, and the numbers of replies
    requests and of channel listings in it. *)
Fixpoint sleeps_of (t : list event) : list nat :=
  match t with
  | [] => []
  | Sleep n :: rest => n :: sleeps_of rest
  | _ :: rest => sleeps_of rest
  end.

Fixpoint count_replies (t : list event) : nat :=
  match t with
  | [] => 0
  | Replies _ :: rest => S (count_replies rest)
  | _ :: rest => count_replies rest
  end.

Fixpoint count_listings (t : list event) : nat :=
  match t with
  | [] => 0
  | ListChannels _ :: rest => S (count_listings rest)
  | _ :: rest => count_listings rest
  end.

(** [thread_served self channel_id message_ts cursor c pages sleeps ok c']:
    from the client state [c] and the cursor [cursor], the replies
    requests of the thread are answered with the pages [pages], each page
    but the last with [has_more] set and requested with the cursor of the
    page before.  Rate-limit errors may come in between, announcing the
    durations [sleeps].  The run of answers ends with a page without
    [has_more] ([ok] is true) or with an error that is no rate limit
    ([ok] is false), and leaves the client in [c']. *)
Inductive thread_served (self : SlackReader) (channel_id message_ts : string)
    : option string -> St -> list page -> list nat -> bool -> St -> Prop :=
| thread_last cursor c p c' :
    conversations_replies (replies_kwargs self channel_id message_ts cursor) c
      = (inr p, c') ->
    has_more p = false ->
    thread_served self channel_id message_ts cursor c [p] [] true c'
| thread_failed cursor c e c' :
    conversations_replies (replies_kwargs self channel_id message_ts cursor) c
      = (inl e, c') ->
    error e <> "ratelimited" ->
    thread_served self channel_id message_ts cursor c [] [] false c'
| thread_more cursor c p c1 pages sleeps ok c' :
    conversations_replies (replies_kwargs self channel_id message_ts cursor) c
      = (inr p, c1) ->
    has_more p = true ->
    thread_served self channel_id message_ts (Some (next_cursor p)) c1
      pages sleeps ok c' ->
    thread_served self channel_id message_ts cursor c (p :: pages) sleeps ok c'
| thread_throttled cursor c e c1 pages sleeps ok c' :
    conversations_replies (replies_kwargs self channel_id message_ts cursor) c
      = (inl e, c1) ->
    error e = "ratelimited" ->
    thread_served self channel_id message_ts cursor c1 pages sleeps ok c' ->
    thread_served self channel_id message_ts cursor c pages
      (retry_after e :: sleeps) ok c'.

(** [channel_served self channel_id cursor w texts w']: from the world [w]
    and the cursor [cursor], the history requests of the channel are
    answered until a page without [has_more] comes, the threads of every
    page are read to their end, [texts] are the thread texts of all pages
    in the order of delivery, and [w'] is the world reached.  A history
    request may fail, with a rate limit or with another error, and is
    then issued again. *)
Inductive channel_served (self : SlackReader) (channel_id : string)
    : option string -> world St -> list string -> world St -> Prop :=
| channel_last cursor w p c fuel texts w' :
    conversations_history (history_kwargs self channel_id cursor) (client w)
      = (inr p, c) ->
    has_more p = false ->
    extend_with_threads fuel self channel_id (messages p) []
      (page_received w (history_kwargs self channel_id cursor) c)
      = (Some texts, w') ->
    channel_served self channel_id cursor w texts w'
| channel_more cursor w p c fuel texts w1 rest w' :
    conversations_history (history_kwargs self channel_id cursor) (client w)
      = (inr p, c) ->
    has_more p = true ->
    extend_with_threads fuel self channel_id (messages p) []
      (page_received w (history_kwargs self channel_id cursor) c)
      = (Some texts, w1) ->
    channel_served self channel_id (Some (next_cursor p)) w1 rest w' ->
    channel_served self channel_id cursor w (texts ++ rest) w'
| channel_throttled cursor w e c texts w' :
    conversations_history (history_kwargs self channel_id cursor) (client w)
      = (inl e, c) ->
    error e = "ratelimited" ->
    channel_served self channel_id cursor
      (World c (trace w ++
         [History (history_kwargs self channel_id cursor);
          Log ERROR rate_limit_msg; Sleep (retry_after e)])) texts w' ->
    channel_served self channel_id cursor w texts w'
| channel_retried cursor w e c texts w' :
    conversations_history (history_kwargs self channel_id cursor) (client w)
      = (inl e, c) ->
    error e <> "ratelimited" ->
    channel_served self channel_id cursor
      (World c (trace w ++
         [History (history_kwargs self channel_id cursor);
          Log ERROR other_error_msg])) texts w' ->
    channel_served self channel_id cursor w texts w'.

(** A request for pages of the channel [channel_id]; a channel listing is
    none. *)
Definition addresses (channel_id : string) (e : event) : Prop :=
  match e with
  | Replies kw | History kw => kw_channel kw = channel_id
  | ListChannels _ => False
  | Sleep _ | Log _ _ => True
  end.

(** The number of times [_filter_channels] puts one listed channel into
    its result: once when its name is among the patterns on which
    [re.compile] raises [re.error], and once for every pattern that
    compiles and matches. *)
Definition hits (patterns : list string) (c : channel) : nat :=
  (if mem (name c) (filter (fun p => negb (compiles p)) patterns) then 1 else 0)
  + length (filter (fun p => re_match p (name c)) (filter compiles patterns)).

(** The blank-line delimiter, character by character: two line feeds. *)
Definition two_line_feeds : string :=
  String (Ascii false true false true false false false false)
    (String (Ascii false true false true false false false false) EmptyString).

(** [threads_read fuel self channel_id msgs w texts w']: the threads of
    the messages [msgs] are fetched one after the other, each from the
    world the one before left, starting in [w] and ending in [w'];
    [texts] are what the fetches return, in that order. *)
Inductive threads_read (fuel : nat) (self : SlackReader) (channel_id : string)
    : list message -> world St -> list string -> world St -> Prop :=
| threads_none w : threads_read fuel self channel_id [] w [] w
| threads_next m rest w t w1 texts w' :
    read_message fuel self channel_id (ts m) w = (Some t, w1) ->
    threads_read fuel self channel_id rest w1 texts w' ->
    threads_read fuel self channel_id (m :: rest) w (t :: texts) w'.

(** [channels_read fuel self rc ids w docs w']: the channels [ids] are
    fetched one after the other, each from the world the one before
    left, starting in [w] and ending in [w']; [docs] are the documents of
    what the fetches return, in that order. *)
Inductive channels_read (fuel : nat) (self : SlackReader) (rc : bool)
    : list string -> world St -> list Document -> world St -> Prop :=
| channels_none w : channels_read fuel self rc [] w [] w
| channels_next i rest w content w1 docs w' :
    read_channel fuel self i rc w = (Some content, w1) ->
    channels_read fuel self rc rest w1 docs w' ->
    channels_read fuel self rc (i :: rest) w
      ({| id_ := i; doc_text := content; metadata := [("channel", i)] |}
       :: docs) w'.

(** The world after [_get_channel_ids] has listed the channels [listed]
    and selected [selected] of them, and [load_data] has warned when none
    was selected. *)
Definition listed_world (w : world St) (c : St) (selected : list channel)
    : world St :=
  World c (trace w ++
    [ListChannels "public_channel,private_channel";
     Log INFO "Total channels fetched: ";
     Log INFO "Channels matching patterns: "]
    ++ (if is_nil selected then [Log WARNING no_channels_msg] else [])).


Definition selector_msg : string :=
  "Must specify either `channel_ids` or `channel_patterns`.".

(** The token [__init__] goes on with. *)
Definition resolved_token (args : InitArgs) (environ : string -> option string)
    : option string :=
  match arg_slack_token args with
  | Some t => Some t
  | None => environ "SLACK_BOT_TOKEN"
  end.

End Vocabulary.

(** ** What a run adds to the trace *)

Create HintDb appends.

Section Appends.

Context {St : Type} (P : event -> Prop).

Lemma appends_ret {A} (a : A) : appends (St := St) P (ret a).
Proof. intros w. exists []. cbn. rewrite app_nil_r. auto. Qed.

Lemma appends_out_of_fuel {A} : appends (St := St) (A := A) P out_of_fuel.
Proof. intros w. exists []. cbn. rewrite app_nil_r. auto. Qed.

Lemma appends_emit e : P e -> appends (St := St) P (emit e).
Proof. intros He w. exists [e]. cbn. auto. Qed.

Lemma appends_call {A} (f : St -> A * St) : appends P (call f).
Proof.
  intros w. exists []. unfold call. destruct (f (client w)). cbn.
  rewrite app_nil_r. auto.
Qed.

Lemma appends_bind {A B} (m : Run St A) (k : A -> Run St B) :
  appends P m -> (forall a, appends P (k a)) -> appends P (bind m k).
Proof.
  intros Hm Hk w. unfold bind. destruct (Hm w) as (e1 & E1 & F1).
  destruct (m w) as [[a|] w1]; cbn in E1.
  - destruct (Hk a w1) as (e2 & E2 & F2). exists (e1 ++ e2).
    rewrite E2, E1, app_assoc. split; [reflexivity | now apply Forall_app].
  - exists e1. cbn. auto.
Qed.

End Appends.

Lemma appends_weaken {St A} (P Q : event -> Prop) (m : Run St A) :
  (forall e, P e -> Q e) -> appends P m -> appends Q m.
Proof.
  intros HPQ Hm w. destruct (Hm w) as (evs & E & F). exists evs. split; auto.
  eapply Forall_impl; eauto.
Qed.

#[local] Hint Resolve appends_ret appends_out_of_fuel appends_emit appends_call
  appends_bind : appends.

Section Events.

Context `{PY : PyRuntime} {St : Type} `{WC : !WebClient St}.

Lemma read_message_loop_events fuel self channel_id message_ts acc cursor :
  appends (thread_event self)
    (read_message_loop fuel self channel_id message_ts acc cursor).
Proof.
  revert acc cursor. induction fuel as [|fuel IH]; intros acc cursor; cbn.
  - apply appends_out_of_fuel.
  - apply appends_bind; [apply appends_emit; cbn; eauto|intros _].
    apply appends_bind; [apply appends_call|intros [e|result]].
    + destruct (error e =? "ratelimited")%string;
        repeat (apply appends_bind; [apply appends_emit; exact I|intros _]);
        auto with appends.
    + destruct (has_more result); cbn; auto with appends.
Qed.

Lemma read_message_events fuel self channel_id message_ts :
  appends (thread_event self) (read_message fuel self channel_id message_ts).
Proof.
  apply appends_bind; [apply read_message_loop_events|intros; apply appends_ret].
Qed.

Lemma extend_with_threads_events fuel self channel_id msgs acc :
  appends (thread_event self)
    (extend_with_threads fuel self channel_id msgs acc).
Proof.
  revert acc. induction msgs as [|m rest IH]; intros acc; cbn.
  - apply appends_ret.
  - apply appends_bind; [apply read_message_events|intros; apply IH].
Qed.

Lemma thread_event_fetch self e : thread_event self e -> fetch_event self e.
Proof. destruct e; cbn; tauto. Qed.

Lemma read_channel_loop_events fuel self channel_id acc cursor :
  appends (fetch_event self)
    (read_channel_loop fuel self channel_id acc cursor).
Proof.
  revert acc cursor. induction fuel as [|fuel IH]; intros acc cursor; cbn.
  - apply appends_out_of_fuel.
  - apply appends_bind; [apply appends_emit; cbn; eauto|intros _].
    apply appends_bind; [apply appends_call|intros [e|result]].
    + destruct (error e =? "ratelimited")%string;
        repeat (apply appends_bind; [apply appends_emit; exact I|intros _]);
        auto with appends.
    + apply appends_bind; [apply appends_emit; exact I|intros _].
      apply appends_bind; [|intros acc'].
      * eapply appends_weaken; [apply thread_event_fetch|].
        apply extend_with_threads_events.
      * destruct (has_more result); cbn; auto with appends.
Qed.

Lemma read_channel_events fuel self channel_id rc :
  appends (fetch_event self) (read_channel fuel self channel_id rc).
Proof.
  apply appends_bind; [apply read_channel_loop_events|intros; apply appends_ret].
Qed.

(** The bounds on the requests of either loop. *)
Lemma fetch_event_bounds self e : fetch_event self e -> sends_bounds self e.
Proof.
  destruct e as [kw|kw| | |]; cbn; auto.
  - intros (c & t & cur & ->). unfold replies_kwargs.
    destruct (earliest_date_timestamp self); cbn; auto.
  - intros (c & cur & ->). cbn. auto.
Qed.

Lemma thread_event_no_history self evs :
  Forall (thread_event self) evs -> count_history evs = 0.
Proof.
  induction 1 as [|e evs He _ IH]; cbn; auto.
  destruct e; cbn in He; tauto.
Qed.

Lemma count_history_app t1 t2 :
  count_history (t1 ++ t2) = count_history t1 + count_history t2.
Proof.
  induction t1 as [|e t1 IH]; cbn; auto. destruct e; cbn; auto.
Qed.

End Events.

(** ** Rate limiting *)

Section RateLimit.

Context `{PY : PyRuntime} {St : Type} `{WC : !WebClient St}.

Lemma emit_then {A} e (k : Run St A) w :
  appends (fun _ => True) k ->
  exists rest, trace (snd (bind (emit e) (fun _ => k) w)) = trace w ++ e :: rest.
Proof.
  intros Hk. unfold bind, emit.
  destruct (Hk (World (client w) (trace w ++ [e]))) as (r & E & _).
  exists r. rewrite E. cbn. rewrite <- app_assoc. reflexivity.
Qed.

Lemma read_message_loop_appends fuel self channel_id message_ts acc cursor :
  appends (fun _ => True)
    (read_message_loop fuel self channel_id message_ts acc cursor).
Proof.
  eapply appends_weaken; [|apply read_message_loop_events]. auto.
Qed.

Lemma read_channel_loop_appends fuel self channel_id acc cursor :
  appends (fun _ => True) (read_channel_loop fuel self channel_id acc cursor).
Proof.
  eapply appends_weaken; [|apply read_channel_loop_events]. auto.
Qed.

Lemma extend_with_threads_appends fuel self channel_id msgs acc :
  appends (fun _ => True) (extend_with_threads fuel self channel_id msgs acc).
Proof.
  eapply appends_weaken; [|apply extend_with_threads_events]. auto.
Qed.

#[local] Hint Resolve read_message_loop_appends read_channel_loop_appends
  extend_with_threads_appends : appends.

(** Each loop starts every iteration with the request for the current
    cursor. *)
Lemma read_message_loop_first fuel self channel_id message_ts acc cursor w :
  exists rest,
    trace (snd (read_message_loop (S fuel) self channel_id message_ts acc cursor w))
    = trace w ++ Replies (replies_kwargs self channel_id message_ts cursor) :: rest.
Proof.
  cbn [read_message_loop]. apply emit_then.
  apply appends_bind; [apply appends_call|intros [e|result]].
  - destruct (error e =? "ratelimited")%string;
      repeat (apply appends_bind; [apply appends_emit; exact I|intros _]);
      auto with appends.
  - destruct (has_more result); cbn; auto with appends.
Qed.

Lemma read_channel_loop_first fuel self channel_id acc cursor w :
  exists rest,
    trace (snd (read_channel_loop (S fuel) self channel_id acc cursor w))
    = trace w ++ History (history_kwargs self channel_id cursor) :: rest.
Proof.
  cbn [read_channel_loop]. apply emit_then.
  apply appends_bind; [apply appends_call|intros [e|result]].
  - destruct (error e =? "ratelimited")%string;
      repeat (apply appends_bind; [apply appends_emit; exact I|intros _]);
      auto with appends.
  - apply appends_bind; [apply appends_emit; exact I|intros _].
    apply appends_bind; [auto with appends|intros acc'].
    destruct (has_more result); cbn; auto with appends.
Qed.

(** One iteration that meets a rate-limit error: the request, the log
    record and the suspension are added to the trace, and the loop goes
    on from the same variables. *)
Lemma read_message_loop_ratelimited fuel self channel_id message_ts acc cursor
    e w c' :
  error e = "ratelimited" ->
  conversations_replies (replies_kwargs self channel_id message_ts cursor)
    (client w) = (inl e, c') ->
  read_message_loop (S fuel) self channel_id message_ts acc cursor w =
  read_message_loop fuel self channel_id message_ts acc cursor
    (World c' (trace w ++
       [Replies (replies_kwargs self channel_id message_ts cursor);
        Log ERROR rate_limit_msg; Sleep (retry_after e)])).
Proof.
  intros He Hc. cbn [read_message_loop]. unfold bind, emit, call. cbn.
  rewrite Hc, He. cbn. repeat rewrite <- app_assoc. reflexivity.
Qed.

Lemma read_channel_loop_ratelimited fuel self channel_id acc cursor e w c' :
  error e = "ratelimited" ->
  conversations_history (history_kwargs self channel_id cursor) (client w)
    = (inl e, c') ->
  read_channel_loop (S fuel) self channel_id acc cursor w =
  read_channel_loop fuel self channel_id acc cursor
    (World c' (trace w ++
       [History (history_kwargs self channel_id cursor);
        Log ERROR rate_limit_msg; Sleep (retry_after e)])).
Proof.
  intros He Hc. cbn [read_channel_loop]. unfold bind, emit, call. cbn.
  rewrite Hc, He. cbn. repeat rewrite <- app_assoc. reflexivity.
Qed.

End RateLimit.

(** ** The claims about the fetch loops *)

Section Loops.

Context `{PY : PyRuntime} {St : Type} `{WC : !WebClient St}.

(** A thread fetch stops at an error that is no rate limit and returns
    what it has. *)
Lemma read_message_loop_other_error fuel self channel_id message_ts acc cursor
    e w c' :
  error e <> "ratelimited" ->
  conversations_replies (replies_kwargs self channel_id message_ts cursor)
    (client w) = (inl e, c') ->
  read_message_loop (S fuel) self channel_id message_ts acc cursor w =
  (Some acc,
   World c' (trace w ++
     [Replies (replies_kwargs self channel_id message_ts cursor);
      Log ERROR other_error_msg])).
Proof.
  intros He Hc. apply String.eqb_neq in He.
  cbn [read_message_loop]. unfold bind, emit, call, ret. cbn.
  rewrite Hc, He. cbn. repeat rewrite <- app_assoc. reflexivity.
Qed.

(** A channel fetch logs such an error and asks for the same page again. *)
Lemma read_channel_loop_other_error fuel self channel_id acc cursor e w c' :
  error e <> "ratelimited" ->
  conversations_history (history_kwargs self channel_id cursor) (client w)
    = (inl e, c') ->
  read_channel_loop (S fuel) self channel_id acc cursor w =
  read_channel_loop fuel self channel_id acc cursor
    (World c' (trace w ++
       [History (history_kwargs self channel_id cursor);
        Log ERROR other_error_msg])).
Proof.
  intros He Hc. apply String.eqb_neq in He.
  cbn [read_channel_loop]. unfold bind, emit, call. cbn.
  rewrite Hc, He. cbn. repeat rewrite <- app_assoc. reflexivity.
Qed.

(** C2: when a page request of either loop is answered with a rate-limit
    error, the run is suspended for the announced number of seconds right
    after the request, the loop goes on with the same accumulated items
    and the same cursor, and the next thing it does is to issue the same
    request again. *)
Theorem rate_limit_sleeps_then_retries fuel self channel_id message_ts acc
    cursor e w c' :
  error e = "ratelimited" ->
  (let kw := replies_kwargs self channel_id message_ts cursor in
   conversations_replies kw (client w) = (inl e, c') ->
   read_message_loop (S (S fuel)) self channel_id message_ts acc cursor w =
   read_message_loop (S fuel) self channel_id message_ts acc cursor
     (World c' (trace w ++
        [Replies kw; Log ERROR rate_limit_msg; Sleep (retry_after e)])) /\
   exists rest,
     trace (snd (read_message_loop (S (S fuel)) self channel_id message_ts
                   acc cursor w))
     = trace w ++ [Replies kw; Log ERROR rate_limit_msg;
                   Sleep (retry_after e); Replies kw] ++ rest) /\
  (let kw := history_kwargs self channel_id cursor in
   conversations_history kw (client w) = (inl e, c') ->
   read_channel_loop (S (S fuel)) self channel_id acc cursor w =
   read_channel_loop (S fuel) self channel_id acc cursor
     (World c' (trace w ++
        [History kw; Log ERROR rate_limit_msg; Sleep (retry_after e)])) /\
   exists rest,
     trace (snd (read_channel_loop (S (S fuel)) self channel_id acc cursor w))
     = trace w ++ [History kw; Log ERROR rate_limit_msg;
                   Sleep (retry_after e); History kw] ++ rest).
Proof.
  intros He. split; intros kw Hc; subst kw.
  - pose proof (read_message_loop_ratelimited (S fuel) self channel_id
                  message_ts acc cursor e w c' He Hc) as Hstep.
    split; [exact Hstep|]. rewrite Hstep.
    match goal with
    | |- exists rest, trace (snd (read_message_loop _ _ _ _ _ _ ?w0)) = _ =>
      destruct (read_message_loop_first fuel self channel_id message_ts acc
                  cursor w0) as (rest & Hrest)
    end.
    exists rest. rewrite Hrest. cbn [trace].
    rewrite <- app_assoc. reflexivity.
  - pose proof (read_channel_loop_ratelimited (S fuel) self channel_id acc
                  cursor e w c' He Hc) as Hstep.
    split; [exact Hstep|]. rewrite Hstep.
    match goal with
    | |- exists rest, trace (snd (read_channel_loop _ _ _ _ _ ?w0)) = _ =>
      destruct (read_channel_loop_first fuel self channel_id acc cursor w0)
        as (rest & Hrest)
    end.
    exists rest. rewrite Hrest. cbn [trace].
    rewrite <- app_assoc. reflexivity.
Qed.

(** C3: when the channel loop has collected the thread texts [texts], in
    the order the messages were delivered, the channel text is these
    texts joined by two line feeds: as collected when
    [reverse_chronological] is true, reversed when it is false. *)
Theorem read_channel_order fuel self channel_id w texts w' :
  read_channel_loop fuel self channel_id [] None w = (Some texts, w') ->
  read_channel fuel self channel_id true w =
  (Some (String.concat two_line_feeds texts), w') /\
  read_channel fuel self channel_id false w =
  (Some (String.concat two_line_feeds (rev texts)), w').
Proof.
  intros H. unfold read_channel, bind, ret. rewrite H.
  split; reflexivity.
Qed.

(** C4, amended: a replies request carries both bounds of the window when
    the earliest bound is set and no bound when it is not; a history
    request always carries the latest bound as upper bound, and the
    earliest bound as lower bound when it is set.  This holds for every
    request the two fetches issue, whether they return or not. *)
Theorem requests_carry_window_bounds fuel self channel_id message_ts
    reverse_chronological :
  appends (sends_bounds self) (read_message fuel self channel_id message_ts) /\
  appends (sends_bounds self)
    (read_channel fuel self channel_id reverse_chronological).
Proof.
  split.
  - eapply appends_weaken; [|apply read_message_events].
    intros e He. apply fetch_event_bounds, thread_event_fetch, He.
  - eapply appends_weaken; [apply fetch_event_bounds|].
    apply read_channel_events.
Qed.

End Loops.

(** ** Pagination *)

Section Pages.

Context `{PY : PyRuntime} {St : Type} `{WC : !WebClient St}.

(** A run that returned within its budget returns the same with a larger
    one. *)
Lemma read_message_loop_mono fuel fuel' self channel_id message_ts acc cursor
    (w : world St) r :
  fuel <= fuel' ->
  fst (read_message_loop fuel self channel_id message_ts acc cursor w) = Some r ->
  read_message_loop fuel' self channel_id message_ts acc cursor w =
  read_message_loop fuel self channel_id message_ts acc cursor w.
Proof.
  revert fuel' acc cursor w.
  induction fuel as [|fuel IH]; intros fuel' acc cursor w Hle H.
  - discriminate H.
  - destruct fuel' as [|fuel']; [lia|].
    cbn [read_message_loop] in *. unfold bind, emit, call in *. cbn in *.
    destruct (conversations_replies _ (client w)) as [[e|result] c]; cbn in *.
    + destruct (error e =? "ratelimited")%string; cbn in *; [|reflexivity].
      apply IH; [lia|exact H].
    + destruct (has_more result); cbn in *; [|reflexivity].
      apply IH; [lia|exact H].
Qed.

Lemma read_message_mono fuel fuel' self channel_id message_ts (w : world St) r :
  fuel <= fuel' ->
  fst (read_message fuel self channel_id message_ts w) = Some r ->
  read_message fuel' self channel_id message_ts w =
  read_message fuel self channel_id message_ts w.
Proof.
  intros Hle H. unfold read_message, bind in *.
  destruct (read_message_loop fuel self channel_id message_ts [] None w)
    as [[l|] w1] eqn:E; [|discriminate H].
  erewrite read_message_loop_mono; [rewrite E; reflexivity|exact Hle|].
  rewrite E. reflexivity.
Qed.

Lemma extend_with_threads_mono fuel fuel' self channel_id msgs acc
    (w : world St) r :
  fuel <= fuel' ->
  fst (extend_with_threads fuel self channel_id msgs acc w) = Some r ->
  extend_with_threads fuel' self channel_id msgs acc w =
  extend_with_threads fuel self channel_id msgs acc w.
Proof.
  intros Hle. revert acc w.
  induction msgs as [|m rest IH]; intros acc w H; cbn in *; [reflexivity|].
  unfold bind in *.
  destruct (read_message fuel self channel_id (ts m) w) as [[t|] w1] eqn:E;
    [|discriminate H].
  erewrite read_message_mono; [rewrite E; apply IH, H|exact Hle|].
  rewrite E. reflexivity.
Qed.

Lemma read_channel_loop_mono fuel fuel' self channel_id acc cursor
    (w : world St) r :
  fuel <= fuel' ->
  fst (read_channel_loop fuel self channel_id acc cursor w) = Some r ->
  read_channel_loop fuel' self channel_id acc cursor w =
  read_channel_loop fuel self channel_id acc cursor w.
Proof.
  revert fuel' acc cursor w.
  induction fuel as [|fuel IH]; intros fuel' acc cursor w Hle H.
  - discriminate H.
  - destruct fuel' as [|fuel']; [lia|].
    cbn [read_channel_loop] in *. unfold bind, emit, call in *. cbn in *.
    destruct (conversations_history _ (client w)) as [[e|result] c]; cbn in *.
    + destruct (error e =? "ratelimited")%string; cbn in *;
        (apply IH; [lia|exact H]).
    + match type of H with
      | context [extend_with_threads fuel ?s ?c ?ms ?a ?w0] =>
        destruct (extend_with_threads fuel s c ms a w0) as [[acc'|] w1] eqn:E;
          [|discriminate H];
        rewrite (extend_with_threads_mono fuel fuel' s c ms a w0 acc');
          [rewrite E|lia|rewrite E; reflexivity]
      end.
      destruct (has_more result); cbn in *; [|reflexivity].
      apply IH; [lia|exact H].
Qed.

(** What [extend_with_threads] does to the world does not depend on the
    list it extends, and it only appends to that list. *)
Lemma extend_with_threads_acc fuel self channel_id msgs acc (w : world St) :
  extend_with_threads fuel self channel_id msgs acc w =
  (option_map (app acc)
     (fst (extend_with_threads fuel self channel_id msgs [] w)),
   snd (extend_with_threads fuel self channel_id msgs [] w)).
Proof.
  revert acc w. induction msgs as [|m rest IH]; intros acc w; cbn.
  - unfold ret. cbn. rewrite app_nil_r. reflexivity.
  - unfold bind.
    destruct (read_message fuel self channel_id (ts m) w) as [[t|] w1];
      [|reflexivity].
    rewrite (IH (acc ++ [t])), (IH ([] ++ [t])). cbn.
    destruct (fst (extend_with_threads fuel self channel_id rest [] w1));
      cbn; [|reflexivity].
    rewrite <- app_assoc. reflexivity.
Qed.

Lemma extend_with_threads_count fuel self channel_id msgs acc (w : world St) :
  count_history (trace (snd (extend_with_threads fuel self channel_id msgs acc w)))
  = count_history (trace w).
Proof.
  destruct (extend_with_threads_events fuel self channel_id msgs acc w)
    as (evs & E & F).
  rewrite E, count_history_app, (thread_event_no_history self evs F). lia.
Qed.

(** The channel loop on a history of [N] pages: it returns, and it has
    then issued [N] history requests. *)
Lemma paged_history_run self channel_id N cursor (w : world St) :
  paged_history self channel_id N cursor w ->
  forall acc, exists fuel texts w',
    read_channel_loop fuel self channel_id acc cursor w = (Some texts, w') /\
    count_history (trace w') = count_history (trace w) + N.
Proof.
  induction 1 as [cursor w result c fuel texts w' Hc Hm He
                 |N cursor w result c fuel texts w' Hc Hm He _ IH]; intros acc.
  - exists (S fuel), (acc ++ texts), w'.
    cbn [read_channel_loop]. unfold bind, emit, call. cbn. rewrite Hc. cbn.
    repeat rewrite <- app_assoc. cbn.
    fold (page_received w (history_kwargs self channel_id cursor) c).
    rewrite extend_with_threads_acc, He, Hm. cbn. split; [reflexivity|].
    pose proof (extend_with_threads_count fuel self channel_id
                  (messages result) []
                  (page_received w (history_kwargs self channel_id cursor) c))
      as Hn.
    rewrite He in Hn. cbn in Hn. rewrite Hn, count_history_app. cbn. lia.
  - destruct (IH (acc ++ texts)) as (fuel2 & texts2 & w2 & Hrun & Hcount).
    exists (S (Nat.max fuel fuel2)), texts2, w2.
    cbn [read_channel_loop]. unfold bind, emit, call. cbn. rewrite Hc. cbn.
    repeat rewrite <- app_assoc. cbn.
    fold (page_received w (history_kwargs self channel_id cursor) c).
    rewrite extend_with_threads_acc.
    rewrite (extend_with_threads_mono fuel (Nat.max fuel fuel2) self channel_id
               (messages result) []
               (page_received w (history_kwargs self channel_id cursor) c) texts);
      [|lia|rewrite He; reflexivity].
    rewrite He, Hm. cbn.
    rewrite (read_channel_loop_mono fuel2 (Nat.max fuel fuel2) self channel_id
               (acc ++ texts) (Some (next_cursor result)) w' texts2);
      [|lia|rewrite Hrun; reflexivity].
    split; [exact Hrun|]. rewrite Hcount.
    pose proof (extend_with_threads_count fuel self channel_id
                  (messages result) []
                  (page_received w (history_kwargs self channel_id cursor) c))
      as Hn.
    rewrite He in Hn. cbn in Hn. rewrite Hn, count_history_app. cbn. lia.
Qed.

(** C9: on a channel whose history has [N] pages, with no rate limit and
    no error on the history requests and every thread read to its end,
    the channel fetch returns and has issued exactly [N] history
    requests.  When the first page already comes without [has_more], it
    has issued that one request and no other. *)
Theorem read_channel_requests_per_page N self channel_id reverse_chronological
    (w : world St) :
  paged_history self channel_id N None w ->
  (exists fuel content w',
     read_channel fuel self channel_id reverse_chronological w
       = (Some content, w') /\
     count_history (trace w') = count_history (trace w) + N) /\
  (forall result c,
     conversations_history (history_kwargs self channel_id None) (client w)
       = (inr result, c) ->
     has_more result = false -> N = 1).
Proof.
  intros H. split.
  - destruct (paged_history_run self channel_id N None w H [])
      as (fuel & texts & w' & Hrun & Hcount).
    exists fuel, (join delimiter
                    (if reverse_chronological then texts else rev texts)), w'.
    split; [|exact Hcount].
    unfold read_channel, bind, ret. rewrite Hrun.
    destruct reverse_chronological; reflexivity.
  - intros result c Hc Hm.
    inversion H as [cur w0 r0 c0 f0 t0 w0' Hc0 Hm0 He0
                   |N0 cur w0 r0 c0 f0 t0 w0' Hc0 Hm0 He0 Hrest]; subst;
      [reflexivity|].
    rewrite Hc in Hc0. injection Hc0 as <- <-. congruence.
Qed.

End Pages.

(** ** Channel resolution *)

Section Channels.

Context `{PY : PyRuntime} {St : Type} `{WC : !WebClient St}.

Lemma regex_hits_In c c' regex_patterns :
  In c' (regex_hits c regex_patterns) <->
  c' = c /\ exists p, In p regex_patterns /\ re_match p (name c) = true.
Proof.
  induction regex_patterns as [|p rest IH]; cbn.
  - split; [tauto|]. intros (_ & p & [] & _).
  - destruct (re_match p (name c)) eqn:E; cbn; rewrite IH; split.
    + intros [<-|(-> & q & Hq & Hm)]; split; eauto.
    + intros (-> & q & [<-|Hq] & Hm); eauto.
    + intros (-> & q & Hq & Hm). eauto.
    + intros (-> & q & [<-|Hq] & Hm); [congruence|eauto].
Qed.

Lemma mem_In x l : mem x l = true <-> In x l.
Proof.
  unfold mem. rewrite existsb_exists. split.
  - intros (y & Hy & E). apply String.eqb_eq in E. now subst.
  - intros H. exists x. split; [exact H|apply String.eqb_refl].
Qed.

(** The two comprehensions of [_filter_channels] when no pattern makes
    [re.compile] raise anything but [re.error], and when one does. *)
Lemma comprehension_is_regex patterns :
  first_raise patterns = None ->
  comprehension is_regex patterns = inr (filter compiles patterns) /\
  comprehension is_not_regex patterns
  = inr (filter (fun p => negb (compiles p)) patterns).
Proof.
  induction patterns as [|p rest IH]; cbn; [auto|].
  intros H.
  assert (Hp : (is_regex p = inr true /\ is_not_regex p = inr false /\
                compiles p = true /\ first_raise rest = None) \/
               (is_regex p = inr false /\ is_not_regex p = inr true /\
                compiles p = false /\ first_raise rest = None)).
  { unfold is_not_regex, is_regex, compiles.
    destruct (re_compile p); [left|right|discriminate H]; auto. }
  destruct Hp as [(-> & -> & -> & Hr)|(-> & -> & -> & Hr)];
    destruct (IH Hr) as (-> & ->); cbn; auto.
Qed.

Lemma comprehension_raises patterns e :
  first_raise patterns = Some e ->
  comprehension is_regex patterns = inl e.
Proof.
  induction patterns as [|p rest IH]; cbn; [discriminate|].
  intros H.
  assert (Hp : (exists b, is_regex p = inr b /\ first_raise rest = Some e) \/
               is_regex p = inl e).
  { unfold is_regex.
    destruct (re_compile p); [left; eauto|left; eauto|right; congruence]. }
  destruct Hp as [(b & -> & Hr)| ->]; [|reflexivity].
  now rewrite (IH Hr).
Qed.

Lemma filter_channels_returns channels patterns :
  first_raise patterns = None ->
  filter_channels channels patterns =
  inr (filter (fun c => mem (name c)
                 (filter (fun p => negb (compiles p)) patterns)) channels
       ++ flat_map (fun c => regex_hits c (filter compiles patterns)) channels).
Proof.
  intros H. unfold filter_channels.
  destruct (comprehension_is_regex patterns H) as (-> & ->). reflexivity.
Qed.

Lemma filter_channels_raises channels patterns e :
  first_raise patterns = Some e ->
  filter_channels channels patterns = inl e.
Proof.
  intros H. unfold filter_channels.
  now rewrite (comprehension_raises patterns e H).
Qed.

(** C8, amended: a pattern that compiles is a regular expression and
    matches a channel exactly when [re.match] succeeds on the name, that
    is from the start of the name, and for a pattern of literal
    characters exactly when the name starts with it; a pattern on which
    [re.compile] raises [re.error] matches exactly when it is the name.
    When [re.compile] raises nothing else on the patterns,
    [_filter_channels] returns, and a channel is in its result exactly
    when it is listed and one pattern at least matches it.  When
    [re.compile] raises another exception on a pattern, no pattern is
    classified and [_filter_channels] raises the first such exception. *)
Theorem filter_channels_selects channels patterns :
  match first_raise patterns with
  | Some e => filter_channels channels patterns = inl e
  | None =>
    exists selected,
      filter_channels channels patterns = inr selected /\
      forall c, In c selected <->
                In c channels /\
                exists p, In p patterns /\ pattern_matches p c = true
  end /\
  (forall p c, pattern_matches p c = true <->
     (re_compile p = Compiled /\ re_match p (name c) = true) \/
     (re_compile p = ReError /\ p = name c)) /\
  (forall p c, literal p = true ->
     re_compile p = Compiled /\
     pattern_matches p c = String.prefix p (name c)).
Proof.
  assert (Hpm : forall p c, pattern_matches p c = true <->
            (re_compile p = Compiled /\ re_match p (name c) = true) \/
            (re_compile p = ReError /\ p = name c)).
  { intros p c. unfold pattern_matches.
    destruct (re_compile p); rewrite ?String.eqb_eq; split;
      try (intros [(H & _)|(H & _)]; discriminate H); auto;
      try discriminate.
    - intros [(_ & H)|(H & _)]; [exact H|discriminate H].
    - intros [(H & _)|(_ & H)]; [discriminate H|exact H]. }
  split; [|split; [exact Hpm|]].
  - destruct (first_raise patterns) as [e|] eqn:Hr.
    + apply filter_channels_raises, Hr.
    + eexists. split; [apply filter_channels_returns, Hr|].
      intros c. rewrite in_app_iff, filter_In, in_flat_map, mem_In. split.
      * intros [(Hc & Hn)|(c0 & Hc0 & Hh)].
        -- apply filter_In in Hn. destruct Hn as (Hp & Hk).
           split; [exact Hc|]. exists (name c). split; [exact Hp|].
           apply Hpm. right. split; [|reflexivity].
           unfold compiles in Hk. destruct (re_compile (name c)) eqn:E;
             [discriminate Hk|reflexivity|].
           exfalso. clear -Hp E Hr.
           induction patterns as [|q rest IH]; [destruct Hp|].
           cbn in Hr. destruct Hp as [->|Hp].
           ++ rewrite E in Hr. discriminate Hr.
           ++ destruct (re_compile q); try discriminate Hr; auto.
        -- apply regex_hits_In in Hh. destruct Hh as (-> & p & Hp & Hm).
           apply filter_In in Hp. destruct Hp as (Hp & Hk).
           split; [exact Hc0|]. exists p. split; [exact Hp|].
           apply Hpm. left. split; [|exact Hm].
           unfold compiles in Hk. destruct (re_compile p);
             [reflexivity|discriminate Hk|discriminate Hk].
      * intros (Hc & p & Hp & Hm). apply Hpm in Hm.
        destruct Hm as [(Hk & Hm)|(Hk & ->)].
        -- right. exists c. split; [exact Hc|]. apply regex_hits_In.
           split; [reflexivity|]. exists p. split; [|exact Hm].
           apply filter_In. split; [exact Hp|]. unfold compiles. now rewrite Hk.
        -- left. split; [exact Hc|]. apply filter_In. split; [exact Hp|].
           unfold compiles. now rewrite Hk.
  - intros p c Hl. split; [apply re_literal_compiles, Hl|].
    unfold pattern_matches. rewrite (re_literal_compiles p Hl).
    apply re_literal_match, Hl.
Qed.


(** [_get_channel_ids] always comes back, with ids or with an exception. *)
Lemma get_channel_ids_returns patterns (w : world St) :
  exists r w', get_channel_ids patterns w = (Some r, w').
Proof.
  unfold get_channel_ids, list_channels, bind, emit, call, ret. cbn.
  destruct (conversations_list _ (client w)) as [[e|chans] c]; cbn;
    match goal with
    | |- context [filter_channels ?l ?p] => destruct (filter_channels l p)
    end; cbn; eauto.
Qed.

(** The channels [_list_channels] returns from a client state: the
    listing, or none when the listing fails. *)
Lemma get_channel_ids_selected patterns (w : world St) ids w0 :
  get_channel_ids patterns w = (Some (inr ids), w0) ->
  exists listed selected,
    filter_channels listed patterns = inr selected /\
    ids = map id selected /\
    match fst (conversations_list "public_channel,private_channel" (client w))
    with
    | inr l => listed = l
    | inl _ => listed = []
    end.
Proof.
  unfold get_channel_ids, list_channels, bind, emit, call, ret. cbn.
  destruct (conversations_list _ (client w)) as [[e|chans] c]; cbn;
    match goal with
    | |- context [filter_channels ?l ?p] =>
      destruct (filter_channels l p) as [x|sel] eqn:E
    end; cbn; intros H; try discriminate H;
    injection H as <- _; eauto.
Qed.

End Channels.

(** ** Loading *)

Section Load.

Context `{PY : PyRuntime} {St : Type} `{WC : !WebClient St}.

(** The loop of [load_data] returns exactly when the channel fetches
    return one after the other, with their documents appended in that
    order. *)
Lemma load_channels_read fuel self rc ids results (w : world St) docs w' :
  load_channels fuel self rc ids results w = (Some docs, w') <->
  exists new, docs = results ++ new /\ channels_read fuel self rc ids w new w'.
Proof.
  revert results w. induction ids as [|i rest IH]; intros results w; cbn.
  - unfold ret. split.
    + intros H. injection H as <- <-. exists []. rewrite app_nil_r.
      split; [reflexivity|constructor].
    + intros (new & -> & H). inversion H; subst. now rewrite app_nil_r.
  - unfold bind. split.
    + destruct (read_channel fuel self i rc w) as [[content|] w1] eqn:E;
        [|discriminate].
      intros H. apply IH in H. destruct H as (new & -> & Hr).
      eexists (_ :: new). rewrite <- app_assoc. split; [reflexivity|].
      econstructor; eassumption.
    + intros (new & -> & H). inversion H as [|? ? ? content w1 docs0 ? E Hr];
        subst. rewrite E. apply IH. exists docs0.
      rewrite <- app_assoc. auto.
Qed.

Lemma channels_read_ids fuel self rc ids (w : world St) docs w' :
  channels_read fuel self rc ids w docs w' ->
  map id_ docs = ids /\
  Forall (fun d => metadata d = [("channel", id_ d)]) docs.
Proof.
  induction 1 as [|i rest w content w1 docs w' E _ (IH1 & IH2)]; cbn; auto.
  rewrite IH1. auto.
Qed.

(** C5, amended: a load call given ids or patterns, whose resolution
    yields the ids [ids] and whose channel fetches return one after the
    other, returns one document per entry of [ids], in order, each with
    its channel id as identity and as channel metadata.  Without
    patterns, [ids] are the explicit ids as they are given, duplicates
    included.  With patterns alone, [ids] are the ids of the channels
    that [_filter_channels] selects from the listing.  With both, [ids]
    has no duplicates and holds exactly the explicit ids and the ids
    resolved from the patterns: one document per distinct channel id. *)
Theorem load_data_documents fuel self channel_ids channel_patterns rc
    (w : world St) ids w1 docs w' :
  truthy channel_ids || truthy channel_patterns = true ->
  resolve_channel_ids channel_ids channel_patterns w = (Some (inr ids), w1) ->
  channels_read fuel self rc ids w1 docs w' ->
  load_data fuel self channel_ids channel_patterns rc w = (Some (inr docs), w') /\
  map id_ docs = ids /\
  Forall (fun d => metadata d = [("channel", id_ d)]) docs /\
  (truthy channel_patterns = false -> ids = opt_list channel_ids) /\
  (truthy channel_patterns = true ->
   exists listed selected,
     match fst (conversations_list "public_channel,private_channel" (client w))
     with
     | inr l => listed = l
     | inl _ => listed = []
     end /\
     filter_channels listed (opt_list channel_patterns) = inr selected /\
     (truthy channel_ids = false -> ids = map id selected) /\
     (truthy channel_ids = true ->
      NoDup ids /\
      forall x, In x ids <->
                In x (opt_list channel_ids) \/ In x (map id selected))).
Proof.
  intros Hsel Hres Hread.
  destruct (channels_read_ids fuel self rc ids w1 docs w' Hread) as (Hids & Hmeta).
  split; [|split; [exact Hids|split; [exact Hmeta|]]].
  - unfold load_data.
    destruct (truthy channel_ids), (truthy channel_patterns);
      cbn in Hsel; try discriminate Hsel; cbn [negb andb];
      unfold bind at 1; rewrite Hres; unfold bind, ret;
      (rewrite (proj2 (load_channels_read fuel self rc ids [] w1 docs w'));
       [reflexivity|exists docs; split; [reflexivity|exact Hread]]).
  - unfold resolve_channel_ids in Hres. split.
    + intros Hp. rewrite Hp in Hres. unfold ret in Hres. congruence.
    + intros Hp. rewrite Hp in Hres. unfold bind at 1 in Hres.
      destruct (get_channel_ids (opt_list channel_patterns) w)
        as [[[e|pids]|] w0] eqn:Hg; try discriminate Hres.
      destruct (get_channel_ids_selected _ _ _ _ Hg)
        as (listed & selected & Hf & -> & Hl).
      exists listed, selected. split; [exact Hl|]. split; [exact Hf|].
      unfold bind, ret in Hres.
      destruct (is_nil (map id selected)); cbn in Hres;
        (split; intros Hi; rewrite Hi in Hres; injection Hres as <- _;
         [reflexivity|]);
        (split; [apply list_of_set_NoDup|]);
        intros x; rewrite list_of_set_In, in_app_iff; tauto.
Qed.


End Load.

(** ** Construction *)

Section Construction.

Context `{PY : PyRuntime} {St : Type} `{WC : !WebClient St}.


(** The upper bound of a reader built with [latest_date]. *)
Lemma init_latest_date args environ now d r (w : world St) :
  arg_latest_date args = Some d ->
  init args environ now = inr (r, w) ->
  latest_date_timestamp r = timestamp d.
Proof.
  unfold init. intros Hl H. rewrite Hl in H.
  destruct (match arg_slack_token args with
            | Some t => Some t
            | None => environ "SLACK_BOT_TOKEN"
            end); [|discriminate H].
  destruct (arg_earliest_date args); [|discriminate H].
  destruct (api_test _) as [[e|[[|] msg]] c]; try discriminate H.
  injection H as <- _. reflexivity.
Qed.

(** The upper bound of a reader built without [latest_date]: the time of
    construction, whatever [latest_date_timestamp] was passed, as soon as
    that time is a float that counts as true. *)
Lemma init_latest_now args environ now r (w : world St) :
  arg_latest_date args = None ->
  float_truthy (timestamp now) = true ->
  init args environ now = inr (r, w) ->
  latest_date_timestamp r = timestamp now.
Proof.
  unfold init, float_or. intros Hl Ht H. rewrite Hl, Ht in H.
  destruct (match arg_slack_token args with
            | Some t => Some t
            | None => environ "SLACK_BOT_TOKEN"
            end); [|discriminate H].
  destruct (api_test _) as [[e|[[|] msg]] c]; try discriminate H.
  injection H as <- _. reflexivity.
Qed.

End Construction.

(** ** Thread and channel texts *)

Section Texts.

Context `{PY : PyRuntime} {St : Type} `{WC : !WebClient St}.

Lemma sleeps_of_app t1 t2 : sleeps_of (t1 ++ t2) = sleeps_of t1 ++ sleeps_of t2.
Proof.
  induction t1 as [|e t1 IH]; cbn; auto. destruct e; cbn; rewrite ?IH; auto.
Qed.

Lemma count_replies_app t1 t2 :
  count_replies (t1 ++ t2) = count_replies t1 + count_replies t2.
Proof.
  induction t1 as [|e t1 IH]; cbn; auto. destruct e; cbn; rewrite ?IH; auto.
Qed.

(** The thread loop on a thread that is served as [thread_served] says. *)
Lemma thread_served_run self channel_id message_ts cursor c pages sleeps ok c' :
  thread_served self channel_id message_ts cursor c pages sleeps ok c' ->
  forall acc t, exists fuel evs,
    read_message_loop fuel self channel_id message_ts acc cursor (World c t)
      = (Some (acc ++ texts_of pages), World c' (t ++ evs)) /\
    sleeps_of evs = sleeps /\
    count_replies evs
      = length pages + length sleeps + (if ok then 0 else 1).
Proof.
  induction 1 as [cursor c p c' Hc Hm
                 |cursor c e c' Hc He
                 |cursor c p c1 pages sleeps ok c' Hc Hm _ IH
                 |cursor c e c1 pages sleeps ok c' Hc He _ IH]; intros acc t.
  - exists 1, [Replies (replies_kwargs self channel_id message_ts cursor)].
    cbn [read_message_loop]. unfold bind, emit, call, ret. cbn.
    rewrite Hc, Hm. cbn. rewrite app_nil_r. auto.
  - exists 1, [Replies (replies_kwargs self channel_id message_ts cursor);
               Log ERROR other_error_msg].
    rewrite (read_message_loop_other_error 0 self channel_id message_ts acc
               cursor e (World c t) c' He Hc).
    cbn. rewrite app_nil_r. auto.
  - destruct (IH (acc ++ map text (messages p))
                (t ++ [Replies (replies_kwargs self channel_id message_ts cursor)]))
      as (fuel & evs & Hrun & Hs & Hn).
    exists (S fuel),
      (Replies (replies_kwargs self channel_id message_ts cursor) :: evs).
    cbn [read_message_loop]. unfold bind, emit, call. cbn.
    rewrite Hc, Hm. cbn. rewrite Hrun.
    unfold texts_of. cbn. repeat rewrite <- app_assoc. cbn.
    split; [reflexivity|]. split; [exact Hs|]. rewrite Hn. lia.
  - destruct (IH acc
                (t ++ [Replies (replies_kwargs self channel_id message_ts cursor);
                       Log ERROR rate_limit_msg; Sleep (retry_after e)]))
      as (fuel & evs & Hrun & Hs & Hn).
    exists (S fuel),
      (Replies (replies_kwargs self channel_id message_ts cursor)
       :: Log ERROR rate_limit_msg :: Sleep (retry_after e) :: evs).
    rewrite (read_message_loop_ratelimited fuel self channel_id message_ts acc
               cursor e (World c t) c1 He Hc).
    cbn [client trace]. rewrite Hrun. repeat rewrite <- app_assoc. cbn.
    split; [reflexivity|]. split; [now rewrite Hs|]. rewrite Hn. lia.
Qed.

(** The text of a thread: when the replies requests are answered with the
    pages [pages], the thread fetch returns the texts of all their
    messages in order, joined by the blank-line delimiter.  Rate limits in
    between change nothing in the text and make the run sleep for just
    the announced durations; an error that is no rate limit ends the
    fetch with the texts of the pages received before it.  One request is
    issued per page, one more per rate limit and one more for the failed
    request. *)
Theorem read_message_text self channel_id message_ts pages sleeps ok
    (w : world St) c' :
  thread_served self channel_id message_ts None (client w) pages sleeps ok c' ->
  exists fuel w',
    read_message fuel self channel_id message_ts w
      = (Some (join delimiter (texts_of pages)), w') /\
    client w' = c' /\
    sleeps_of (trace w') = sleeps_of (trace w) ++ sleeps /\
    count_replies (trace w')
      = count_replies (trace w) + length pages + length sleeps
        + (if ok then 0 else 1).
Proof.
  intros H. destruct w as [c t]. cbn [client] in H.
  destruct (thread_served_run self channel_id message_ts None c pages sleeps
              ok c' H [] t) as (fuel & evs & Hrun & Hs & Hn).
  exists fuel, (World c' (t ++ evs)).
  unfold read_message, bind, ret. rewrite Hrun. cbn.
  rewrite sleeps_of_app, count_replies_app, Hs, Hn.
  repeat split; auto. lia.
Qed.

(** The thread loop never drops what it has accumulated. *)
Lemma read_message_loop_prefix fuel self channel_id message_ts acc cursor
    (w : world St) r w' :
  read_message_loop fuel self channel_id message_ts acc cursor w = (Some r, w') ->
  exists more, r = acc ++ more.
Proof.
  revert acc cursor w.
  induction fuel as [|fuel IH]; intros acc cursor w H; [discriminate H|].
  cbn [read_message_loop] in H. unfold bind, emit, call, ret in H. cbn in H.
  destruct (conversations_replies _ (client w)) as [[e|result] c]; cbn in H.
  - destruct (error e =? "ratelimited")%string; cbn in H.
    + eapply IH, H.
    + injection H as <- _. exists []. now rewrite app_nil_r.
  - destruct (has_more result); cbn in H.
    + apply IH in H. destruct H as (more & ->).
      exists (map text (messages result) ++ more). now rewrite app_assoc.
    + injection H as <- _. eauto.
Qed.

(** One text per message: [extend_with_threads] returns exactly when the
    thread fetches of the messages return one after the other, each from
    the world the one before left, and it then appends what they return,
    message by message and in order; a message whose thread fetch returns
    the empty text still has its entry. *)
Theorem extend_with_threads_texts fuel self channel_id msgs acc (w : world St)
    r w' :
  (extend_with_threads fuel self channel_id msgs acc w = (Some r, w') <->
   exists texts,
     r = acc ++ texts /\
     threads_read fuel self channel_id msgs w texts w') /\
  (forall texts,
     threads_read fuel self channel_id msgs w texts w' ->
     length texts = length msgs).
Proof.
  split.
  - revert acc w. induction msgs as [|m rest IH]; intros acc w; cbn.
    + unfold ret. split.
      * intros H. injection H as <- <-. exists []. rewrite app_nil_r.
        split; [reflexivity|constructor].
      * intros (texts & -> & H). inversion H; subst. now rewrite app_nil_r.
    + unfold bind. split.
      * destruct (read_message fuel self channel_id (ts m) w)
          as [[t|] w1] eqn:E; [|discriminate].
        intros H. apply IH in H. destruct H as (texts & -> & Hr).
        exists (t :: texts). rewrite <- app_assoc. split; [reflexivity|].
        econstructor; eassumption.
      * intros (texts & -> & H).
        inversion H as [|? ? ? t w1 texts0 ? E Hr]; subst.
        rewrite E. apply IH. exists texts0. rewrite <- app_assoc. auto.
  - intros texts H. induction H; cbn; auto.
Qed.

(** The channel fetch takes only the timestamps from the messages of a
    history page: their texts come from the thread fetches, so two pages
    with the same timestamps are expanded alike whatever texts they
    carry. *)
Theorem extend_with_threads_only_ts fuel self channel_id msgs msgs' acc
    (w : world St) :
  map ts msgs = map ts msgs' ->
  extend_with_threads fuel self channel_id msgs acc w =
  extend_with_threads fuel self channel_id msgs' acc w.
Proof.
  revert msgs' acc w.
  induction msgs as [|m rest IH]; intros [|m' rest'] acc w H; cbn in H;
    try discriminate H; [reflexivity|].
  injection H as Hm Hrest. cbn. rewrite Hm. unfold bind.
  destruct (read_message fuel self channel_id (ts m') w) as [[t|] w1];
    [apply IH, Hrest|reflexivity].
Qed.

(** The channel loop on a channel that is served as [channel_served]
    says. *)
Lemma channel_served_run self channel_id cursor (w : world St) texts w' :
  channel_served self channel_id cursor w texts w' ->
  forall acc, exists fuel,
    read_channel_loop fuel self channel_id acc cursor w
      = (Some (acc ++ texts), w').
Proof.
  induction 1 as [cursor w p c fuel texts w' Hc Hm He
                 |cursor w p c fuel texts w1 rest w' Hc Hm He _ IH
                 |cursor w e c texts w' Hc He _ IH
                 |cursor w e c texts w' Hc He _ IH]; intros acc.
  - exists (S fuel).
    cbn [read_channel_loop]. unfold bind, emit, call. cbn. rewrite Hc. cbn.
    repeat rewrite <- app_assoc. cbn.
    fold (page_received w (history_kwargs self channel_id cursor) c).
    rewrite extend_with_threads_acc, He, Hm. reflexivity.
  - destruct (IH (acc ++ texts)) as (fuel2 & Hrun).
    exists (S (Nat.max fuel fuel2)).
    cbn [read_channel_loop]. unfold bind, emit, call. cbn. rewrite Hc. cbn.
    repeat rewrite <- app_assoc. cbn.
    fold (page_received w (history_kwargs self channel_id cursor) c).
    rewrite extend_with_threads_acc.
    rewrite (extend_with_threads_mono fuel (Nat.max fuel fuel2) self channel_id
               (messages p) []
               (page_received w (history_kwargs self channel_id cursor) c) texts);
      [|lia|rewrite He; reflexivity].
    rewrite He, Hm. cbn.
    rewrite (read_channel_loop_mono fuel2 (Nat.max fuel fuel2) self channel_id
               (acc ++ texts) (Some (next_cursor p)) w1 ((acc ++ texts) ++ rest));
      [|lia|rewrite Hrun; reflexivity].
    rewrite Hrun, app_assoc. reflexivity.
  - destruct (IH acc) as (fuel & Hrun). exists (S fuel).
    rewrite (read_channel_loop_ratelimited fuel self channel_id acc cursor e w c
               He Hc). exact Hrun.
  - destruct (IH acc) as (fuel & Hrun). exists (S fuel).
    rewrite (read_channel_loop_other_error fuel self channel_id acc cursor e w c
               He Hc). exact Hrun.
Qed.

(** The text of a channel: the thread texts of all pages, in the order of
    delivery across the pages, joined by the blank-line delimiter; with
    [reverse_chronological] false the whole list is reversed, not each
    page.  A history request that fails and is issued again adds nothing
    to the text. *)
Theorem read_channel_text self channel_id reverse_chronological (w : world St)
    texts w' :
  channel_served self channel_id None w texts w' ->
  exists fuel,
    read_channel fuel self channel_id reverse_chronological w
    = (Some (join delimiter
               (if reverse_chronological then texts else rev texts)), w').
Proof.
  intros H. destruct (channel_served_run self channel_id None w texts w' H [])
    as (fuel & Hrun).
  exists fuel. unfold read_channel, bind, ret. rewrite Hrun. cbn.
  destruct reverse_chronological; reflexivity.
Qed.

End Texts.

(** ** The requests of a fetch *)

Section Requests.

Context `{PY : PyRuntime} {St : Type} `{WC : !WebClient St}.

Lemma replies_kwargs_channel self channel_id message_ts cursor :
  kw_channel (replies_kwargs self channel_id message_ts cursor) = channel_id.
Proof.
  unfold replies_kwargs. destruct (earliest_date_timestamp self); reflexivity.
Qed.

Lemma read_message_loop_addresses fuel self channel_id message_ts acc cursor :
  appends (St := St) (addresses channel_id)
    (read_message_loop fuel self channel_id message_ts acc cursor).
Proof.
  revert acc cursor. induction fuel as [|fuel IH]; intros acc cursor; cbn.
  - apply appends_out_of_fuel.
  - apply appends_bind;
      [apply appends_emit; cbn; apply replies_kwargs_channel|intros _].
    apply appends_bind; [apply appends_call|intros [e|result]].
    + destruct (error e =? "ratelimited")%string;
        repeat (apply appends_bind; [apply appends_emit; exact I|intros _]);
        auto with appends.
    + destruct (has_more result); cbn; auto with appends.
Qed.

Lemma extend_with_threads_addresses fuel self channel_id msgs acc :
  appends (St := St) (addresses channel_id)
    (extend_with_threads fuel self channel_id msgs acc).
Proof.
  revert acc. induction msgs as [|m rest IH]; intros acc; cbn.
  - apply appends_ret.
  - apply appends_bind; [|intros; apply IH].
    apply appends_bind;
      [apply read_message_loop_addresses|intros; apply appends_ret].
Qed.

(** A channel fetch, returning or not, only asks for pages of the channel
    it is called for, history and replies alike, and never lists the
    channels. *)
Theorem read_channel_addresses fuel self channel_id reverse_chronological :
  appends (St := St) (addresses channel_id)
    (read_channel fuel self channel_id reverse_chronological).
Proof.
  apply appends_bind; [|intros; apply appends_ret].
  generalize (@nil string) as acc, (@None string) as cursor.
  induction fuel as [|fuel IH]; intros acc cursor; cbn.
  - apply appends_out_of_fuel.
  - apply appends_bind; [apply appends_emit; reflexivity|intros _].
    apply appends_bind; [apply appends_call|intros [e|result]].
    + destruct (error e =? "ratelimited")%string;
        repeat (apply appends_bind; [apply appends_emit; exact I|intros _]);
        apply IH.
    + apply appends_bind; [apply appends_emit; exact I|intros _].
      apply appends_bind; [apply extend_with_threads_addresses|intros acc'].
      destruct (has_more result); cbn; [apply IH|apply appends_ret].
Qed.

Lemma count_listings_app t1 t2 :
  count_listings (t1 ++ t2) = count_listings t1 + count_listings t2.
Proof.
  induction t1 as [|e t1 IH]; cbn; auto. destruct e; cbn; rewrite ?IH; auto.
Qed.

Lemma fetch_event_no_listing self evs :
  Forall (fetch_event self) evs -> count_listings evs = 0.
Proof.
  induction 1 as [|e evs He _ IH]; cbn; auto.
  destruct e; cbn in He; tauto.
Qed.

Lemma load_channels_events fuel self rc ids results :
  appends (St := St) (fetch_event self) (load_channels fuel self rc ids results).
Proof.
  revert results. induction ids as [|i rest IH]; intros results; cbn.
  - apply appends_ret.
  - apply appends_bind; [apply read_channel_events|intros; apply IH].
Qed.

(** Resolving the ids always comes back, with ids or with an exception,
    and lists the channels once when patterns are given and not at all
    otherwise; it asks for no page. *)
Lemma resolve_channel_ids_listings channel_ids channel_patterns (w : world St) :
  exists r w1,
    resolve_channel_ids channel_ids channel_patterns w = (Some r, w1) /\
    count_listings (trace w1)
    = count_listings (trace w) + (if truthy channel_patterns then 1 else 0) /\
    count_history (trace w1) = count_history (trace w) /\
    count_replies (trace w1) = count_replies (trace w) /\
    (forall e, r = inl e ->
       truthy channel_patterns = true /\
       first_raise (opt_list channel_patterns) = Some e) /\
    (forall e, truthy channel_patterns = true ->
       first_raise (opt_list channel_patterns) = Some e -> r = inl e).
Proof.
  unfold resolve_channel_ids.
  destruct (truthy channel_patterns).
  - unfold get_channel_ids, list_channels, bind, emit, call, ret. cbn.
    destruct (conversations_list _ (client w)) as [[e|chans] c]; cbn;
      match goal with
      | |- context [filter_channels ?l ?p] =>
        destruct (first_raise p) as [x|] eqn:Hr;
          [rewrite (filter_channels_raises l p x Hr)
          |rewrite (filter_channels_returns l p Hr)]
      end; cbn;
      try match goal with
          | |- context [is_nil ?l] => destruct (is_nil l)
          end; cbn; try destruct (truthy channel_ids); cbn;
      do 2 eexists; (split; [reflexivity|]); cbn;
      repeat rewrite count_listings_app, count_history_app, count_replies_app;
      cbn; repeat split; try lia; try congruence;
      intros y Hy; try discriminate Hy; congruence.
  - unfold ret. do 2 eexists. split; [reflexivity|].
    repeat split; try lia; intros; discriminate.
Qed.

(** A load call, returning or not, lists the channels exactly once when
    patterns are given and never when they are not: the listing is not
    paginated and not repeated per channel. *)
Theorem load_data_lists_channels_once fuel self channel_ids channel_patterns
    reverse_chronological (w : world St) :
  count_listings
    (trace (snd (load_data fuel self channel_ids channel_patterns
                   reverse_chronological w)))
  = count_listings (trace w) + (if truthy channel_patterns then 1 else 0).
Proof.
  unfold load_data.
  destruct (truthy channel_ids) eqn:Hi, (truthy channel_patterns) eqn:Hp; cbn;
    try (unfold ret; cbn; lia);
    unfold bind at 1;
    destruct (resolve_channel_ids_listings channel_ids channel_patterns w)
      as ([x|ids] & w1 & Hres & Hn & _); rewrite Hres, Hp in *;
    unfold bind, ret; cbn; try lia;
    destruct (load_channels_events fuel self reverse_chronological ids [] w1)
      as (evs & E & F);
    destruct (load_channels fuel self reverse_chronological ids [] w1)
      as [[docs|] w2]; cbn in *;
    rewrite E, count_listings_app, (fetch_event_no_listing self evs F); lia.
Qed.

End Requests.

(** ** How often a channel is resolved *)

Section Resolution.

Context `{PY : PyRuntime} {St : Type} `{WC : !WebClient St}.

Lemma regex_hits_length c regex_patterns :
  length (regex_hits c regex_patterns)
  = length (filter (fun p => re_match p (name c)) regex_patterns).
Proof.
  induction regex_patterns as [|p rest IH]; cbn; [reflexivity|].
  destruct (re_match p (name c)); cbn; auto.
Qed.

Lemma regex_hits_filter (f : channel -> bool) c regex_patterns :
  filter f (regex_hits c regex_patterns)
  = if f c then regex_hits c regex_patterns else [].
Proof.
  induction regex_patterns as [|p rest IH]; cbn.
  - destruct (f c); reflexivity.
  - destruct (re_match p (name c)); cbn; rewrite ?IH; destruct (f c); auto.
Qed.

Lemma filter_flat_map {A B} (f : B -> bool) (g : A -> list B) l :
  filter f (flat_map g l) = flat_map (fun a => filter f (g a)) l.
Proof.
  induction l as [|a l IH]; cbn; [reflexivity|].
  rewrite filter_app, IH. reflexivity.
Qed.

(** [_filter_channels] does not remove duplicates: in the list it
    returns, among the channels that satisfy any test [f], each listed
    channel is as many times as it is hit, once by its exact name and
    once by every regular expression that matches.  With [f] always true
    this is the length of the result; a channel that no pattern hits is
    not in it, and with no pattern the result is empty.  It returns no
    list only when [re.compile] raises on a pattern. *)
Theorem filter_channels_multiplicity (f : channel -> bool) channels patterns :
  match filter_channels channels patterns with
  | inr selected =>
    length (filter f selected)
    = list_sum (map (hits patterns) (filter f channels))
  | inl e => first_raise patterns = Some e
  end.
Proof.
  destruct (first_raise patterns) as [e|] eqn:Hr.
  - now rewrite (filter_channels_raises channels patterns e Hr).
  - rewrite (filter_channels_returns channels patterns Hr).
    rewrite filter_app, length_app, filter_flat_map.
    induction channels as [|c rest IH]; cbn; [reflexivity|].
    rewrite regex_hits_filter, length_app.
    destruct (mem (name c) (filter (fun p => negb (compiles p)) patterns))
      eqn:Hm;
      destruct (f c) eqn:Hf; cbn; rewrite ?Hf; cbn;
      first [exact IH
            |unfold hits at 1; rewrite Hm, regex_hits_length; cbn;
             unfold list_sum in *; lia].
Qed.

(** A load call with patterns alone, on a listing that succeeds and
    patterns from which [_filter_channels] selects [selected], returns as
    soon as the fetches of the selected channels return one after the
    other, and its documents follow [selected] in its order and with its
    duplicates: a channel that two patterns hit has two documents. *)
Theorem load_data_patterns_only fuel self channel_ids patterns rc channels c
    (w : world St) selected docs w' :
  truthy channel_ids = false ->
  patterns <> [] ->
  conversations_list "public_channel,private_channel" (client w)
    = (inr channels, c) ->
  filter_channels channels patterns = inr selected ->
  channels_read fuel self rc (map id selected) (listed_world w c selected)
    docs w' ->
  load_data fuel self channel_ids (Some patterns) rc w = (Some (inr docs), w') /\
  map id_ docs = map id selected.
Proof.
  intros Hi Hp Hc Hf Hread.
  assert (Ht : truthy (Some patterns) = true).
  { destruct patterns; [congruence|reflexivity]. }
  split; [|eapply channels_read_ids, Hread].
  unfold load_data, resolve_channel_ids. rewrite Ht, Hi. cbn [negb andb opt_list].
  unfold get_channel_ids, list_channels, bind, emit, call, ret. cbn.
  rewrite Hc. cbn. rewrite Hf. cbn.
  unfold listed_world in Hread.
  assert (En : is_nil (map id selected) = is_nil selected)
    by (destruct selected; reflexivity).
  rewrite En. destruct (is_nil selected); cbn;
    repeat rewrite <- app_assoc in *; cbn in *;
    rewrite ?app_nil_r in Hread;
    rewrite (proj2 (load_channels_read fuel self rc (map id selected) [] _
                      docs w')); try reflexivity;
    exists docs; split; try reflexivity; exact Hread.
Qed.

End Resolution.

(** ** Documents and errors of a load call *)

Section Documents.

Context `{PY : PyRuntime} {St : Type} `{WC : !WebClient St}.

(** A load call returns documents exactly when ids or patterns are
    given, the resolution yields ids, and the channels of these ids are
    fetched to their end one after the other, each from the world the
    fetch before left: the documents are, in that order, the ids with the
    texts these fetches return, under the [reverse_chronological] of the
    call. *)
Theorem load_data_texts fuel self channel_ids channel_patterns rc
    (w : world St) docs w' :
  load_data fuel self channel_ids channel_patterns rc w = (Some (inr docs), w') <->
  truthy channel_ids || truthy channel_patterns = true /\
  exists ids w1,
    resolve_channel_ids channel_ids channel_patterns w = (Some (inr ids), w1) /\
    channels_read fuel self rc ids w1 docs w'.
Proof.
  unfold load_data.
  destruct (truthy channel_ids || truthy channel_patterns) eqn:Hsel.
  2:{ apply orb_false_iff in Hsel. destruct Hsel as (-> & ->). cbn.
      unfold ret. split; [discriminate|intros (H & _); discriminate H]. }
  assert (Hn : negb (truthy channel_ids) && negb (truthy channel_patterns)
               = false).
  { destruct (truthy channel_ids), (truthy channel_patterns);
      try reflexivity; discriminate Hsel. }
  rewrite Hn. unfold bind at 1.
  destruct (resolve_channel_ids channel_ids channel_patterns w)
    as [[[e|ids]|] w1] eqn:Hres.
  - unfold ret. split; [discriminate|].
    intros (_ & ids & w2 & H & _). discriminate H.
  - unfold bind, ret. split.
    + destruct (load_channels fuel self rc ids [] w1) as [[ds|] w2] eqn:Hl;
        [|discriminate].
      intros H. injection H as <- <-. split; [reflexivity|].
      exists ids, w1. split; [reflexivity|].
      apply load_channels_read in Hl. destruct Hl as (new & -> & Hr).
      exact Hr.
    + intros (_ & ids' & w2 & H & Hr). injection H as <- <-.
      rewrite (proj2 (load_channels_read fuel self rc ids [] w1 docs w'));
        [reflexivity|]. exists docs. auto.
  - split; [discriminate|].
    intros (_ & ids & w2 & H & _). discriminate H.
Qed.

(** The two ways a load call raises.  With neither ids nor patterns, each
    of them absent or empty, it raises the [ValueError] before any
    request and leaves the world as it was.  With patterns on one of
    which [re.compile] raises an exception other than [re.error], it
    raises the first such exception, after the one channel listing and
    before any page request. *)
Theorem load_data_raises fuel self channel_ids channel_patterns rc
    (w : world St) :
  (truthy channel_ids = false -> truthy channel_patterns = false ->
   load_data fuel self channel_ids channel_patterns rc w =
   (Some (inl (ValueError selector_msg)), w)) /\
  (forall e,
     truthy channel_patterns = true ->
     first_raise (opt_list channel_patterns) = Some e ->
     exists w1,
       load_data fuel self channel_ids channel_patterns rc w
         = (Some (inl e), w1) /\
       count_listings (trace w1) = count_listings (trace w) + 1 /\
       count_history (trace w1) = count_history (trace w) /\
       count_replies (trace w1) = count_replies (trace w)).
Proof.
  split.
  - intros Hi Hp. unfold load_data. rewrite Hi, Hp. reflexivity.
  - intros e Hp Hr. unfold load_data. rewrite Hp.
    rewrite andb_false_r. unfold bind at 1.
    destruct (resolve_channel_ids_listings channel_ids channel_patterns w)
      as (r & w1 & Hres & Hl & Hh & Hrp & _ & Hraise).
    rewrite Hres. rewrite (Hraise e Hp Hr). unfold ret.
    exists w1. rewrite Hp in Hl. auto.
Qed.

End Documents.

(** ** When construction succeeds *)

Section Success.

Context `{PY : PyRuntime} {St : Type} `{WC : !WebClient St}.

(** The reader a successful construction builds: its token is the
    argument or, without one, the environment's; its lower bound is the
    timestamp of [earliest_date] or, without one, the raw
    [earliest_date_timestamp]; with [latest_date] its upper bound is that
    date's timestamp, and an [earliest_date] was given; and no page was
    requested yet. *)
Theorem init_reader args environ now r (w : world St) :
  init args environ now = inr (r, w) ->
  resolved_token args environ = Some (slack_token r) /\
  earliest_date_timestamp r
  = match arg_earliest_date args with
    | Some d => Some (timestamp d)
    | None => arg_earliest_date_timestamp args
    end /\
  (forall d, arg_latest_date args = Some d ->
     latest_date_timestamp r = timestamp d /\ arg_earliest_date args <> None) /\
  trace w = [].
Proof.
  unfold init, resolved_token. intros H.
  destruct (match arg_slack_token args with
            | Some t => Some t
            | None => environ "SLACK_BOT_TOKEN"
            end) as [token|]; [|discriminate H].
  destruct (arg_latest_date args) as [l|], (arg_earliest_date args) as [e|];
    try discriminate H;
    destruct (api_test _) as [[err|[[|] msg]] c]; try discriminate H;
    cbn in H;
    try (destruct (float_or _ _); [|discriminate H]);
    injection H as <- <-; cbn; repeat split; try discriminate.
  congruence.
Qed.


End Success.

(** ** The reader on the test doubles *)

Import Double.

(** A thread fetch whose second page fails returns the first page. *)
Example read_message_partial :
  fst (read_message 2 unbounded "C" "1" (start cut_thread)) = Some "root".
Proof. reflexivity. Qed.

(** With an error on every history request the channel loop never
    returns. *)
Lemma read_channel_loop_stuck fuel t :
  fst (read_channel_loop fuel unbounded "C" [] None (World empty t)) = None.
Proof.
  revert t. induction fuel as [|fuel IH]; intros t; [reflexivity|].
  rewrite (read_channel_loop_other_error fuel unbounded "C" [] None fatal
             (World empty t) empty); [apply IH|discriminate|reflexivity].
Qed.

(** C1, at the inputs where the channel loop departs from it.  On
    [flaky] the first history request fails with an error that is no rate
    limit: the channel fetch does not stop there with the empty text, it
    issues the same request again and returns the text of the page that
    comes then.  On a client whose history requests always fail this way
    the channel fetch does not return, whatever the budget. *)
Theorem read_channel_goes_on_after_error :
  read_channel 3 unbounded "C" true (start flaky) =
  (Some "late",
   World empty
     [History (history_kwargs unbounded "C" None);
      Log ERROR other_error_msg;
      History (history_kwargs unbounded "C" None);
      Log INFO messages_found_msg;
      Replies (replies_kwargs unbounded "C" "1" None)]) /\
  forall fuel, fst (read_channel fuel unbounded "C" true (start empty)) = None.
Proof.
  split; [reflexivity|].
  intros fuel. unfold read_channel, bind, start.
  pose proof (read_channel_loop_stuck fuel []) as H.
  destruct (read_channel_loop fuel unbounded "C" [] None (World empty []))
    as [[l|] w]; [discriminate H|reflexivity].
Qed.

Lemma rate_limit_sleeps_then_retries_witness :
  (exists rest,
     trace (snd (read_message_loop 2 unbounded "C" "1" [] None (start throttled)))
     = [Replies (replies_kwargs unbounded "C" "1" None);
        Log ERROR rate_limit_msg; Sleep 7;
        Replies (replies_kwargs unbounded "C" "1" None)] ++ rest) /\
  (exists rest,
     trace (snd (read_channel_loop 2 unbounded "C" [] None (start throttled)))
     = [History (history_kwargs unbounded "C" None);
        Log ERROR rate_limit_msg; Sleep 7;
        History (history_kwargs unbounded "C" None)] ++ rest).
Proof.
  split.
  - destruct (rate_limit_sleeps_then_retries 0 unbounded "C" "1" [] None
                (ratelimited 7) (start throttled)
                {| history_script := history_script throttled;
                   replies_script := [inr (single "r" false "")];
                   channels_script := [] |} eq_refl) as [Ht _].
    destruct (Ht eq_refl) as [_ H]. exact H.
  - destruct (rate_limit_sleeps_then_retries 0 unbounded "C" "1" [] None
                (ratelimited 7) (start throttled)
                {| history_script := [inr (single "1" false "")];
                   replies_script := replies_script throttled;
                   channels_script := [] |} eq_refl) as [_ Hc].
    destruct (Hc eq_refl) as [_ H]. exact H.
Defined.

Lemma read_channel_order_witness :
  read_channel 2 unbounded "C" true (start three_messages) =
  (Some "m3

m2

m1", snd (read_channel_loop 2 unbounded "C" [] None (start three_messages))) /\
  read_channel 2 unbounded "C" false (start three_messages) =
  (Some "m1

m2

m3", snd (read_channel_loop 2 unbounded "C" [] None (start three_messages))).
Proof.
  apply (read_channel_order 2 unbounded "C" (start three_messages)
           ["m3"; "m2"; "m1"]
           (snd (read_channel_loop 2 unbounded "C" [] None
                   (start three_messages)))).
  reflexivity.
Defined.

(** Against C4 as worded: without a window the history request still
    carries the latest bound. *)
Lemma history_sends_latest_without_window :
  earliest_date_timestamp unbounded = None /\
  ~ appends (claimed_bounds unbounded) (read_channel 1 unbounded "C" true).
Proof.
  split; [reflexivity|]. intros H.
  destruct (H (start empty)) as (evs & E & F).
  vm_compute in E. subst evs.
  inversion F as [|e l He _]. destruct He as [_ He]. discriminate He.
Qed.

Lemma read_channel_requests_per_page_witness :
  exists fuel content w',
    read_channel fuel unbounded "C" true (start two_pages) = (Some content, w') /\
    count_history (trace w') = 2.
Proof.
  destruct (read_channel_requests_per_page 2 unbounded "C" true
              (start two_pages)) as [H _]; [|exact H].
  eapply (next_page unbounded "C" 1 None (start two_pages)
            (single "1" true "c1") _ 1);
    [reflexivity|reflexivity|reflexivity|].
  eapply (last_page unbounded "C" (Some "c1") _ (single "2" false "") _ 1);
    reflexivity.
Defined.

(** Against C5 as worded: explicit ids alone are read as they are given,
    and a channel given twice yields two documents. *)
Lemma load_data_keeps_duplicate_ids :
  fst (load_data 1 unbounded (Some ["A"; "A"]) None true (start workspace))
  = Some (inr [channel_document "A" ""; channel_document "A" ""]) /\
  ~ NoDup (map id_ [channel_document "A" ""; channel_document "A" ""]).
Proof.
  split; [reflexivity|]. intros H. inversion H as [|x l Hx _].
  apply Hx. left. reflexivity.
Qed.

Lemma load_data_documents_witness :
  load_data 1 unbounded (Some ["A"]) (Some ["^al.*"]) true (start workspace)
  = (Some (inr [channel_document "A" ""]),
     snd (load_data 1 unbounded (Some ["A"]) (Some ["^al.*"]) true
            (start workspace))) /\
  map id_ [channel_document "A" ""] = ["A"].
Proof.
  destruct (load_data_documents 1 unbounded (Some ["A"]) (Some ["^al.*"]) true
              (start workspace) ["A"]
              (snd (resolve_channel_ids (Some ["A"]) (Some ["^al.*"])
                      (start workspace)))
              [channel_document "A" ""]
              (snd (load_data 1 unbounded (Some ["A"]) (Some ["^al.*"]) true
                      (start workspace)))) as (H1 & H2 & _).
  - reflexivity.
  - vm_compute. reflexivity.
  - apply (channels_next 1 unbounded true "A" [] _ ""
             (snd (load_data 1 unbounded (Some ["A"]) (Some ["^al.*"]) true
                     (start workspace)))).
    + vm_compute. reflexivity.
    + apply channels_none.
  - split; [exact H1|exact H2].
Defined.




(** C7, at the input where the code departs from it: a raw
    [latest_date_timestamp] is passed, no [latest_date], and the clock
    reads 1000.  The reader's upper bound is the clock's 1000 and not the
    value passed, whatever that value is. *)
Theorem raw_latest_timestamp_is_ignored (raw : nat) :
  init (St := mock) (only_raw_latest raw) no_environ 1000
  = inr ({| slack_token := "xoxb"; earliest_date_timestamp := None;
            latest_date_timestamp := 1000 |},
         World empty []).
Proof. reflexivity. Qed.

(** Against C8 as worded: [too_many] does not compile, yet it is not
    taken as an exact name: on the channel of that very name the
    resolution raises and selects nothing. *)
Lemma overflow_pattern_is_not_classified :
  re_compile too_many
  = Raised (OverflowError "the repetition number is too large") /\
  filter_channels [{| id := "X"; name := too_many |}] [too_many]
  = inl (OverflowError "the repetition number is too large").
Proof. split; reflexivity. Qed.

(** A regular expression is matched from the start of the name and need
    not span it; a pattern that raises [re.error] is an exact name. *)
Lemma filter_channels_selects_witness :
  filter_channels
    [{| id := "A"; name := "dev-ops" |}; {| id := "B"; name := "my-dev" |};
     {| id := "C"; name := "*x" |}; {| id := "D"; name := "*xy" |}]
    ["dev"; "*x"]
  = inr [{| id := "C"; name := "*x" |}; {| id := "A"; name := "dev-ops" |}] /\
  pattern_matches "dev" {| id := "A"; name := "dev-ops" |} = true /\
  pattern_matches "dev" {| id := "B"; name := "my-dev" |} = false.
Proof.
  destruct (filter_channels_selects
              [{| id := "A"; name := "dev-ops" |};
               {| id := "B"; name := "my-dev" |};
               {| id := "C"; name := "*x" |}; {| id := "D"; name := "*xy" |}]
              ["dev"; "*x"]) as (_ & _ & H).
  split; [reflexivity|].
  split.
  - rewrite (proj2 (H "dev" {| id := "A"; name := "dev-ops" |} eq_refl)).
    reflexivity.
  - rewrite (proj2 (H "dev" {| id := "B"; name := "my-dev" |} eq_refl)).
    reflexivity.
Defined.

Lemma read_message_text_witness :
  exists fuel w',
    read_message fuel unbounded "C" "1" (start throttled) = (Some "r", w') /\
    sleeps_of (trace w') = [7] /\
    count_replies (trace w') = 2.
Proof.
  destruct (read_message_text unbounded "C" "1" [single "r" false ""] [7] true
              (start throttled)
              {| history_script := history_script throttled;
                 replies_script := [];
                 channels_script := [] |})
    as (fuel & w' & H & _ & Hs & Hn).
  - eapply (thread_throttled unbounded "C" "1" None _ (ratelimited 7));
      [reflexivity|reflexivity|].
    apply thread_last; reflexivity.
  - exists fuel, w'. repeat split; assumption.
Defined.

Lemma extend_with_threads_texts_witness :
  extend_with_threads 1 unbounded "C"
    [{| ts := "3"; text := "m3" |}; {| ts := "2"; text := "m2" |};
     {| ts := "1"; text := "m1" |}] [] (start three_messages)
  = (Some ["m3"; "m2"; "m1"],
     World {| history_script := history_script three_messages;
              replies_script := [];
              channels_script := [] |}
       [Replies (replies_kwargs unbounded "C" "3" None);
        Replies (replies_kwargs unbounded "C" "2" None);
        Replies (replies_kwargs unbounded "C" "1" None)]) /\
  exists texts,
    ["m3"; "m2"; "m1"] = [] ++ texts /\
    threads_read 1 unbounded "C"
      [{| ts := "3"; text := "m3" |}; {| ts := "2"; text := "m2" |};
       {| ts := "1"; text := "m1" |}] (start three_messages) texts
      (World {| history_script := history_script three_messages;
                replies_script := [];
                channels_script := [] |}
         [Replies (replies_kwargs unbounded "C" "3" None);
          Replies (replies_kwargs unbounded "C" "2" None);
          Replies (replies_kwargs unbounded "C" "1" None)]).
Proof.
  split; [reflexivity|].
  apply (proj1 (extend_with_threads_texts 1 unbounded "C"
                  [{| ts := "3"; text := "m3" |}; {| ts := "2"; text := "m2" |};
                   {| ts := "1"; text := "m1" |}] []
                  (start three_messages) ["m3"; "m2"; "m1"] _)).
  reflexivity.
Defined.

Lemma read_channel_text_witness :
  exists fuel,
    fst (read_channel fuel unbounded "C" false (start flaky)) = Some "late".
Proof.
  destruct (read_channel_text unbounded "C" false (start flaky) ["late"]
              (snd (read_channel 3 unbounded "C" false (start flaky))))
    as (fuel & H).
  - eapply (channel_retried unbounded "C" None _ fatal);
      [reflexivity|discriminate|].
    eapply (channel_last unbounded "C" None _ (single "1" false "") _ 1);
      [reflexivity|reflexivity|vm_compute; reflexivity].
  - exists fuel. rewrite H. reflexivity.
Defined.

Lemma load_data_patterns_only_witness :
  load_data 1 unbounded None (Some ["a"; "^al.*"]) true (start workspace)
  = (Some (inr [channel_document "A" ""; channel_document "A" ""]),
     snd (load_data 1 unbounded None (Some ["a"; "^al.*"]) true
            (start workspace))) /\
  map id_ [channel_document "A" ""; channel_document "A" ""] = ["A"; "A"].
Proof.
  apply (load_data_patterns_only 1 unbounded None ["a"; "^al.*"] true
           [{| id := "A"; name := "alpha" |}; {| id := "B"; name := "beta" |}]
           {| history_script := history_script workspace;
              replies_script := [];
              channels_script := [] |}
           (start workspace)
           [{| id := "A"; name := "alpha" |}; {| id := "A"; name := "alpha" |}]
           [channel_document "A" ""; channel_document "A" ""]
           (snd (load_data 1 unbounded None (Some ["a"; "^al.*"]) true
                   (start workspace))));
    [reflexivity|discriminate|reflexivity|reflexivity|].
  eapply channels_next; [vm_compute; reflexivity|].
  eapply channels_next; [vm_compute; reflexivity|].
  apply channels_none.
Defined.

Lemma load_data_texts_witness :
  fst (load_data 3 unbounded (Some ["C"]) None true (start flaky))
  = Some (inr [channel_document "C" "late"]) /\
  exists ids w1,
    resolve_channel_ids (Some ["C"]) None (start flaky) = (Some (inr ids), w1) /\
    channels_read 3 unbounded true ids w1 [channel_document "C" "late"]
      (snd (load_data 3 unbounded (Some ["C"]) None true (start flaky))).
Proof.
  split; [reflexivity|].
  apply (proj1 (load_data_texts 3 unbounded (Some ["C"]) None true (start flaky)
                  [channel_document "C" "late"]
                  (snd (load_data 3 unbounded (Some ["C"]) None true
                          (start flaky))))).
  vm_compute. reflexivity.
Defined.

Lemma load_data_raises_witness :
  exists w1,
    load_data 1 unbounded None (Some ["a"; too_many]) true (start workspace)
    = (Some (inl (OverflowError "the repetition number is too large")), w1) /\
    count_listings (trace w1) = 1 /\
    count_history (trace w1) = 0 /\
    count_replies (trace w1) = 0.
Proof.
  destruct (load_data_raises 1 unbounded None (Some ["a"; too_many]) true
              (start workspace)) as (_ & H).
  exact (H (OverflowError "the repetition number is too large")
           eq_refl eq_refl).
Defined.

Lemma init_reader_witness :
  resolved_token (only_raw_latest 5) no_environ = Some "xoxb" /\
  trace (start empty) = [].
Proof.
  destruct (init_reader (St := mock) (only_raw_latest 5) no_environ 1000
              at_1000 (start empty))
    as (Ht & _ & _ & Hw); [reflexivity|].
  split; [exact Ht|exact Hw].
Defined.

Lemma extend_with_threads_only_ts_witness :
  extend_with_threads 1 unbounded "C"
    [{| ts := "3"; text := "m3" |}] [] (start three_messages) =
  extend_with_threads 1 unbounded "C"
    [{| ts := "3"; text := "edited" |}] [] (start three_messages).
Proof.
  apply (extend_with_threads_only_ts 1 unbounded "C"
           [{| ts := "3"; text := "m3" |}] [{| ts := "3"; text := "edited" |}]
           [] (start three_messages)).
  reflexivity.
Defined.
